(** * Contentful project list: transform, cache hydration and persistence

    A shallow embedding of the two stateful pieces of the application:

    - [fetchProjects] (the hook module): the callback that flattens the
      entries returned by the content source into [Project] objects;
    - the bootstrap module [main.tsx]: the query-client options, the
      hydration of the query cache from [localStorage] and the cache
      subscription that persists the ["projects"] query.

    JavaScript values are modelled by [JsVal]; exceptions are explicit
    ([Completion]); the browser state touched by the bootstrap code is the
    record [World], threaded through a small state-and-exception monad. *)

From stdpp Require Import gmap strings list pretty.
From Stdlib Require Import ZArith Ascii String.

#[local] Set Warnings "-register-all".
Local Open Scope string_scope.
Local Open Scope Z_scope.

(** ** JavaScript values and completions *)

(** Exceptions the modelled code can meet. *)
Inductive Exn :=
| TypeError
| SyntaxError
| SecurityError
| QuotaExceededError
| NetworkError.

(** The outcome of evaluating an expression: a value or a thrown exception. *)
Inductive Completion (A : Type) :=
| Normal (a : A)
| Throw (e : Exn).
Arguments Normal {A} a.
Arguments Throw {A} e.

Definition cbind {A B} (c : Completion A) (k : A -> Completion B) : Completion B :=
  match c with
  | Normal a => k a
  | Throw e => Throw e
  end.

Declare Scope completion_scope.
Delimit Scope completion_scope with completion.
Notation "'let?' x ':=' c 'in' k" := (cbind c (fun x => k))
  (at level 10, x name, c at level 100, k at level 200) : completion_scope.

(** JavaScript values.  A string is a sequence of code units below 256.  A
    number [JNum m e] stands for the finite number [m * 10^e]: the code never
    computes with the numbers held in entries or projects, it only tests
    them for truthiness.  An object is the list of its own properties in
    insertion order; only own data properties are modelled, which is all the
    code reads ([fields], [sys], [id], [title], [url], [image], [file],
    [items]: none of them is inherited from a built-in prototype). *)
Inductive JsVal :=
| JUndefined
| JNull
| JBool (b : bool)
| JNum (m e : Z)
| JStr (s : string)
| JArr (elems : list JsVal)
| JObj (props : list (string * JsVal)).

(** [v === undefined || v === null] *)
Definition nullish (v : JsVal) : bool :=
  match v with
  | JUndefined | JNull => true
  | _ => false
  end.

(** ToBoolean: [undefined], [null], [false], [0], and the empty string are
    falsy; every array and every object, also an empty one, is truthy. *)
Definition truthy (v : JsVal) : bool :=
  match v with
  | JUndefined | JNull => false
  | JBool b => b
  | JNum m _ => negb (m =? 0)
  | JStr s => negb (String.eqb s "")
  | JArr _ | JObj _ => true
  end.

(** The value of own property [k]; [undefined] when there is none. *)
Fixpoint lookupKey (k : string) (props : list (string * JsVal)) : JsVal :=
  match props with
  | [] => JUndefined
  | (k', v) :: rest => if String.eqb k k' then v else lookupKey k rest
  end.

(** [v.k]: a TypeError on [undefined] and [null]. *)
Definition getProp (v : JsVal) (k : string) : Completion JsVal :=
  match v with
  | JUndefined | JNull => Throw TypeError
  | JObj props => Normal (lookupKey k props)
  | _ => Normal JUndefined
  end.

(** [v?.k]: [undefined] on [undefined] and [null], never an exception. *)
Definition optProp (v : JsVal) (k : string) : JsVal :=
  match v with
  | JObj props => lookupKey k props
  | _ => JUndefined
  end.

(** ** The transform of [fetchProjects] *)

Module Transform.

Local Open Scope completion_scope.

(** The callback given to [response.items.map]:
<<
    const fields = item.fields;
    const { title, url, image } = fields;
    const id = item.sys.id;
    const img = image?.fields?.file?.url;
    return { title, url, id, img };
>> *)
Definition mapItem (item : JsVal) : Completion JsVal :=
  let? fields := getProp item "fields" in
  let? title := getProp fields "title" in
  let? url := getProp fields "url" in
  let? image := getProp fields "image" in
  let? sys := getProp item "sys" in
  let? id := getProp sys "id" in
  let img := optProp (optProp (optProp image "fields") "file") "url" in
  Normal (JObj [("title", title); ("url", url); ("id", id); ("img", img)]).

(** [Array.prototype.map]: the callback runs on the elements from left to
    right and the first exception aborts the whole map. *)
Fixpoint arrayMap (f : JsVal -> Completion JsVal) (items : list JsVal)
  : Completion (list JsVal) :=
  match items with
  | [] => Normal []
  | item :: rest =>
      let? p := f item in
      let? ps := arrayMap f rest in
      Normal (p :: ps)
  end.

Definition mappedProjects (items : list JsVal) : Completion (list JsVal) :=
  arrayMap mapItem items.

(** [fetchProjects], given the completion of [client.getEntries(...)]: a
    [Throw] is a rejected promise. *)
Definition fetchProjects (getEntries : Completion JsVal) : Completion JsVal :=
  let? response := getEntries in
  let? items := getProp response "items" in
  match items with
  | JArr elems =>
      let? ps := mappedProjects elems in
      Normal (JArr ps)
  | _ => Throw TypeError
  end.

End Transform.

(** ** Numbers of the bootstrap code *)

(** The numbers the bootstrap code computes with: epoch milliseconds, the
    result of [parseInt] and their difference.  They are integers or [NaN]
    (exact below 2^53, which every epoch-millisecond value is). *)
Inductive JsNumber :=
| NaN
| Num (z : Z).

(** [a - b]: [NaN] as soon as an operand is. *)
Definition numSub (a b : JsNumber) : JsNumber :=
  match a, b with
  | Num x, Num y => Num (x - y)
  | _, _ => NaN
  end.

(** [a < b]: false as soon as an operand is [NaN]. *)
Definition numLt (a b : JsNumber) : bool :=
  match a, b with
  | Num x, Num y => x <? y
  | _, _ => false
  end.

(** White space skipped by [parseInt] (code units below 256: TAB, LF, VT,
    FF, CR, SP and NBSP). *)
Definition isWhiteSpace (c : ascii) : bool :=
  let n := Z.of_nat (nat_of_ascii c) in
  ((9 <=? n) && (n <=? 13)) || (n =? 32) || (n =? 160).

Fixpoint trimStart (s : string) : string :=
  match s with
  | String c rest => if isWhiteSpace c then trimStart rest else s
  | EmptyString => s
  end.

Definition digitValue (c : ascii) : option Z :=
  let n := Z.of_nat (nat_of_ascii c) in
  if (48 <=? n) && (n <=? 57) then Some (n - 48) else None.

(** The value of the longest prefix of decimal digits; [acc] is [None] until
    a digit has been read. *)
Fixpoint leadingDigits (s : string) (acc : option Z) : option Z :=
  match s with
  | String c rest =>
      match digitValue c with
      | Some d => leadingDigits rest (Some (10 * default 0 acc + d))
      | None => acc
      end
  | EmptyString => acc
  end.

(** [parseInt(s, 10)]: leading white space is skipped, one sign is read, then
    the longest run of decimal digits; what follows is ignored, and the
    result is [NaN] when there is no digit. *)
Definition parseInt (s : string) : JsNumber :=
  let trimmed := trimStart s in
  let '(sign, body) :=
    match trimmed with
    | String "-" rest => (-1, rest)
    | String "+" rest => (1, rest)
    | _ => (1, trimmed)
    end in
  match leadingDigits body None with
  | Some n => Num (sign * n)
  | None => NaN
  end.

(** ** The browser state and its monad *)

(** [window.localStorage]: either reading the attribute throws a
    SecurityError (storage disabled for the page), or it is a store of
    strings. *)
Inductive Storage :=
| Denied
| Items (items : gmap string string).

(** What the bootstrap code reads and writes: the durable storage, the data
    held by the query cache under each query key, and the warnings logged on
    the console. *)
Record World := {
  localStorage : Storage;
  queryData : gmap (list string) JsVal;
  console : list string
}.

Definition M (A : Type) : Type := World -> Completion A * World.

Definition ret {A} (a : A) : M A := fun w => (Normal a, w).

Definition bind {A B} (m : M A) (k : A -> M B) : M B :=
  fun w =>
    match m w with
    | (Normal a, w') => k a w'
    | (Throw e, w') => (Throw e, w')
    end.

Definition lift {A} (c : Completion A) : M A := fun w => (c, w).

(** [try { body } catch (error) { handler }]: the handler starts from the
    state the body had reached when it threw. *)
Definition tryCatch {A} (body : M A) (handler : Exn -> M A) : M A :=
  fun w =>
    match body w with
    | (Normal a, w') => (Normal a, w')
    | (Throw e, w') => handler e w'
    end.

Declare Scope world_scope.
Delimit Scope world_scope with world.
Notation "'let*' x ':=' m 'in' k" := (bind m (fun x => k))
  (at level 10, x name, m at level 100, k at level 200) : world_scope.

(** The parts of the platform that are not code of the application: the JSON
    codec and the quota policy of the storage.  [JSON_parse] throws a
    SyntaxError on a text that is not JSON; it rejects the empty text and
    never yields [undefined]. *)
Record Platform := {
  JSON_parse : string -> Completion JsVal;
  JSON_stringify : JsVal -> Completion string;
  quotaExceeded : gmap string string -> string -> string -> bool;
  JSON_parse_empty : exists e, JSON_parse "" = Throw e;
  JSON_parse_defined : forall s, JSON_parse s <> Normal JUndefined
}.

Module Browser.

Local Open Scope world_scope.

(** Evaluating the expression [localStorage]. *)
Definition localStorageRef : M (gmap string string) :=
  fun w =>
    match localStorage w with
    | Denied => (Throw SecurityError, w)
    | Items items => (Normal items, w)
    end.

Definition setItems (items : gmap string string) : M unit :=
  fun w => (Normal tt, {| localStorage := Items items;
                          queryData := queryData w;
                          console := console w |}).

(** [localStorage.getItem(key)]: [None] is [null]. *)
Definition getItem (key : string) : M (option string) :=
  let* items := localStorageRef in
  ret (items !! key).

(** [localStorage.setItem(key, value)]: a QuotaExceededError, and no change,
    when the platform refuses the write. *)
Definition setItem (P : Platform) (key value : string) : M unit :=
  let* items := localStorageRef in
  if quotaExceeded P items key value then lift (Throw QuotaExceededError)
  else setItems (<[key := value]> items).

(** [localStorage.removeItem(key)] *)
Definition removeItem (key : string) : M unit :=
  let* items := localStorageRef in
  setItems (delete key items).

(** [console.warn(message, error)] *)
Definition warn (message : string) : M unit :=
  fun w => (Normal tt, {| localStorage := localStorage w;
                          queryData := queryData w;
                          console := console w ++ [message] |}).

(** [queryClient.setQueryData(queryKey, data)]: the library leaves the cache
    alone when [data] is [undefined]. *)
Definition setQueryData (queryKey : list string) (data : JsVal) : M unit :=
  fun w =>
    match data with
    | JUndefined => (Normal tt, w)
    | _ => (Normal tt, {| localStorage := localStorage w;
                          queryData := <[queryKey := data]> (queryData w);
                          console := console w |})
    end.

End Browser.

(** ** The bootstrap module, [main.tsx] *)

Module Main.

Import Browser.
Local Open Scope world_scope.

(** The [queries] default options of the query client. *)
Record QueryOptions := {
  staleTime : Z;
  gcTime : Z;
  refetchOnWindowFocus : bool;
  refetchOnMount : bool;
  refetchOnReconnect : bool;
  retry : nat
}.

Definition defaultOptions : QueryOptions := {|
  staleTime := 1000 * 60 * 5;
  gcTime := 1000 * 60 * 10;
  refetchOnWindowFocus := false;
  refetchOnMount := false;
  refetchOnReconnect := true;
  retry := 1
|}.

Definition CACHE_KEY : string := "REACT_QUERY_CACHE".
Definition CACHE_TIMESTAMP_KEY : string := "REACT_QUERY_CACHE_TIMESTAMP".
Definition CACHE_DURATION : Z := 1000 * 60 * 5.

(** The query key [["projects"]]. *)
Definition projectsKey : list string := ["projects"].

Definition restoreWarning : string := "Failed to restore cache from localStorage:".
Definition persistWarning : string := "Failed to persist cache to localStorage:".

(** The hydration block, run once when the module is evaluated; [now] is
    what [Date.now()] returns. *)
Definition hydrate (P : Platform) (now : Z) : M unit :=
  tryCatch
    (let* cachedData := getItem CACHE_KEY in
     let* cacheTimestamp := getItem CACHE_TIMESTAMP_KEY in
     match cachedData, cacheTimestamp with
     | Some data, Some stamp =>
         if truthy (JStr data) && truthy (JStr stamp) then
           let timestamp := parseInt stamp in
           if numLt (numSub (Num now) timestamp) (Num CACHE_DURATION) then
             let* parsedCache := lift (JSON_parse P data) in
             setQueryData projectsKey parsedCache
           else
             let* _ := removeItem CACHE_KEY in
             removeItem CACHE_TIMESTAMP_KEY
         else ret tt
     | _, _ => ret tt
     end)
    (fun error =>
       let* _ := warn restoreWarning in
       let* _ := removeItem CACHE_KEY in
       removeItem CACHE_TIMESTAMP_KEY).

(** A query-cache event, as far as the subscriber looks at it:
    [event.query.queryKey] and [event.query.state.data]. *)
Record CacheEvent := {
  queryKey : list string;
  stateData : JsVal
}.

(** The guard of the subscriber:
    [event?.query?.queryKey?.[0] === "projects" && event.query.state.data]. *)
Definition shouldPersist (event : CacheEvent) : bool :=
  match head (queryKey event) with
  | Some k => String.eqb k "projects" && truthy (stateData event)
  | None => false
  end.

(** The two writes inside the [try] of the subscriber.  In
    [localStorage.setItem(CACHE_KEY, JSON.stringify(data))] the object
    [localStorage] is evaluated before the argument. *)
Definition persistWrites (P : Platform) (now : Z) (event : CacheEvent) : M unit :=
  let* _ := localStorageRef in
  let* text := lift (JSON_stringify P (stateData event)) in
  let* _ := setItem P CACHE_KEY text in
  setItem P CACHE_TIMESTAMP_KEY (pretty now).

(** The function given to [queryClient.getQueryCache().subscribe]. *)
Definition onCacheEvent (P : Platform) (now : Z) (event : CacheEvent) : M unit :=
  if shouldPersist event then
    tryCatch (persistWrites P now event) (fun error => warn persistWarning)
  else ret tt.

(** The state of the module when it starts to run: a fresh query client and
    an empty console. *)
Definition startWorld (storage : Storage) : World :=
  {| localStorage := storage; queryData := ∅; console := [] |}.

End Main.

(** ** The hook [useFetchProjects] and the query library under it *)

Module Hook.

Import Main.

(** The status of a query in the library. *)
Inductive QueryStatus :=
| Pending
| Success
| Failed.

(** The state the library keeps for one query: the last data it obtained
    ([undefined] when there is none) and the status. *)
Record QueryState := {
  data : JsVal;
  status : QueryStatus
}.

(** The state of the ["projects"] query when the first observer mounts:
    data seeded by [setQueryData] makes it successful, otherwise it is
    pending without data. *)
Definition initialState (cache : gmap (list string) JsVal) : QueryState :=
  match cache !! projectsKey with
  | Some v => {| data := v; status := Success |}
  | None => {| data := JUndefined; status := Pending |}
  end.

(** Model of the library's retry loop for a numeric [retry] option:
    [queryFn n] is the outcome of the call of the query function made after
    [n] failures; a failed call is repeated while the number of failures so
    far is below [retry].  The result comes with the number of calls made. *)
Fixpoint runQueryFn (retriesLeft : nat) (queryFn : nat -> Completion JsVal)
    (failureCount : nat) : Completion JsVal * nat :=
  match queryFn failureCount with
  | Normal v => (Normal v, S failureCount)
  | Throw e =>
      match retriesLeft with
      | O => (Throw e, S failureCount)
      | S r => runQueryFn r queryFn (S failureCount)
      end
  end.

(** One request cycle of the query under the given options: on success the
    data is replaced, on failure the previous data is kept and the status
    becomes [Failed]. *)
Definition fetchCycle (options : QueryOptions) (queryFn : nat -> Completion JsVal)
    (st : QueryState) : QueryState * nat :=
  match runQueryFn (retry options) queryFn 0 with
  | (Normal v, calls) => ({| data := v; status := Success |}, calls)
  | (Throw _, calls) => ({| data := data st; status := Failed |}, calls)
  end.

(** What the hook returns. *)
Record UseFetchProjectsReturn := {
  loading : bool;
  projects : JsVal
}.

(** [const { data: projects = [], isPending: loading } = useQuery(...)]:
    the default applies when [data] is [undefined], and [isPending] is true
    when the status is pending. *)
Definition useFetchProjects (st : QueryState) : UseFetchProjectsReturn :=
  {| loading := match status st with Pending => true | _ => false end;
     projects := match data st with JUndefined => JArr [] | v => v end |}.

End Hook.

(** ** The components [ProjectSkeleton] and [Projects] *)

Module View.

Import Hook.
Local Open Scope completion_scope.

(** What [{img && (<> <img src={img} alt={title} /> ... </>)}] evaluates to:
    the image with its overlay when [img] is truthy, otherwise the falsy
    value itself, for which nothing is drawn. *)
Inductive ImageSlot :=
| ImageShown (src alt : JsVal)
| ImageSkipped (value : JsVal).

(** The parts of a project card that depend on the project: the React key,
    the link target, the animation delay, the image slot and the heading. *)
Record Card := {
  key : JsVal;
  href : JsVal;
  animationDelay : string;
  image : ImageSlot;
  heading : JsVal
}.

(** The callback given to [projects.map]:
<<
    const { id, img, url, title } = project;
    return <a key={id} href={url}
              style={{ animationDelay: `${index * 100}ms`, ... }}> ... </a>
>> *)
Definition renderCard (project : JsVal) (index : nat) : Completion Card :=
  let? id := getProp project "id" in
  let? img := getProp project "img" in
  let? url := getProp project "url" in
  let? title := getProp project "title" in
  Normal {| key := id;
            href := url;
            animationDelay := pretty (Z.of_nat index * 100) +:+ "ms";
            image := if truthy img then ImageShown img title else ImageSkipped img;
            heading := title |}.

(** [Array.prototype.map] with the index given to the callback. *)
Fixpoint arrayMapIndexed {A} (f : JsVal -> nat -> Completion A) (index : nat)
    (items : list JsVal) : Completion (list A) :=
  match items with
  | [] => Normal []
  | item :: rest =>
      let? x := f item index in
      let? xs := arrayMapIndexed f (S index) rest in
      Normal (x :: xs)
  end.

(** The keys of the placeholder cards of [ProjectSkeleton]:
    [[1, 2, 3].map((item) => <div key={item} ... />)]. *)
Definition ProjectSkeleton : list Z := (fun item => item) <$> [1; 2; 3].

(** What the [Projects] component returns: the section holding the
    skeleton, or the section holding the grid of cards. *)
Inductive Rendered :=
| SkeletonSection (placeholders : list Z)
| CardsSection (cards : list Card).

(** The [Projects] component on the state of the query.  [projects.map] is a
    TypeError when [projects] is not an array. *)
Definition Projects (st : QueryState) : Completion Rendered :=
  let result := useFetchProjects st in
  if loading result then Normal (SkeletonSection ProjectSkeleton)
  else
    match projects result with
    | JArr elems =>
        let? cards := arrayMapIndexed renderCard 0 elems in
        Normal (CardsSection cards)
    | _ => Throw TypeError
    end.

End View.

(** ** A reference platform

    An executable JSON codec over code units below 256 and a storage without
    quota.  The theorems hold for every [Platform]; this one is used to run
    the bootstrap code on concrete inputs. *)

Module Reference.

Definition quote : ascii := ascii_of_nat 34.
Definition charCode (c : ascii) : Z := Z.of_nat (nat_of_ascii c).

(** JSON white space: SP, TAB, LF, CR. *)
Definition isJsonWs (c : ascii) : bool :=
  let n := charCode c in
  (n =? 32) || (n =? 9) || (n =? 10) || (n =? 13).

Fixpoint skipWs (s : string) : string :=
  match s with
  | String c rest => if isJsonWs c then skipWs rest else s
  | EmptyString => s
  end.

Fixpoint stripPrefix (p s : string) : option string :=
  match p, s with
  | EmptyString, _ => Some s
  | String a p', String b s' => if Ascii.eqb a b then stripPrefix p' s' else None
  | String _ _, EmptyString => None
  end.

(** Reads a run of decimal digits into [acc]; also returns how many. *)
Fixpoint readDigits (s : string) (acc : Z) (count : Z) : Z * Z * string :=
  match s with
  | String c rest =>
      match digitValue c with
      | Some d => readDigits rest (10 * acc + d) (count + 1)
      | None => (acc, count, s)
      end
  | EmptyString => (acc, count, s)
  end.

(** The integer part of a JSON number: [0], or digits not starting with 0. *)
Definition readInt (s : string) : option (Z * string) :=
  match s with
  | String c rest =>
      match digitValue c with
      | Some d =>
          if d =? 0 then Some (0, rest)
          else let '(n, _, rest') := readDigits s 0 0 in Some (n, rest')
      | None => None
      end
  | EmptyString => None
  end.

(** The optional fraction: the mantissa grows and the exponent drops by the
    number of digits read. *)
Definition readFraction (mantissa : Z) (s : string) : option (Z * Z * string) :=
  match s with
  | String c rest =>
      if Ascii.eqb c "."%char then
        let '(m, count, rest') := readDigits rest mantissa 0 in
        if count =? 0 then None else Some (m, - count, rest')
      else Some (mantissa, 0, s)
  | EmptyString => Some (mantissa, 0, s)
  end.

(** The optional exponent part. *)
Definition readExponent (s : string) : option (Z * string) :=
  match s with
  | String c rest =>
      if Ascii.eqb c "e"%char || Ascii.eqb c "E"%char then
        let '(sign, body) :=
          match rest with
          | String c' rest' =>
              if Ascii.eqb c' "-"%char then (-1, rest')
              else if Ascii.eqb c' "+"%char then (1, rest')
              else (1, rest)
          | EmptyString => (1, rest)
          end in
        let '(n, count, rest'') := readDigits body 0 0 in
        if count =? 0 then None else Some (sign * n, rest'')
      else Some (0, s)
  | EmptyString => Some (0, s)
  end.

Definition parseNumber (s : string) : option (JsVal * string) :=
  let '(sign, body) :=
    match s with
    | String c rest => if Ascii.eqb c "-"%char then (-1, rest) else (1, s)
    | EmptyString => (1, s)
    end in
  match readInt body with
  | Some (int, s1) =>
      match readFraction int s1 with
      | Some (mantissa, shift, s2) =>
          match readExponent s2 with
          | Some (e, s3) => Some (JNum (sign * mantissa) (shift + e), s3)
          | None => None
          end
      | None => None
      end
  | None => None
  end.

Definition hexValue (c : ascii) : option Z :=
  let n := charCode c in
  if (48 <=? n) && (n <=? 57) then Some (n - 48)
  else if (65 <=? n) && (n <=? 70) then Some (n - 55)
  else if (97 <=? n) && (n <=? 102) then Some (n - 87)
  else None.

(** The character an escape letter stands for. *)
Definition unescape (c : ascii) : option ascii :=
  if Ascii.eqb c quote then Some quote
  else if Ascii.eqb c "\"%char then Some "\"%char
  else if Ascii.eqb c "/"%char then Some "/"%char
  else if Ascii.eqb c "b"%char then Some (ascii_of_nat 8)
  else if Ascii.eqb c "f"%char then Some (ascii_of_nat 12)
  else if Ascii.eqb c "n"%char then Some (ascii_of_nat 10)
  else if Ascii.eqb c "r"%char then Some (ascii_of_nat 13)
  else if Ascii.eqb c "t"%char then Some (ascii_of_nat 9)
  else None.

(** The code unit of [\uXXXX], when it is below 256. *)
Definition unicodeEscape (a b c d : ascii) : option ascii :=
  match hexValue a, hexValue b, hexValue c, hexValue d with
  | Some 0, Some 0, Some h, Some l => Some (ascii_of_nat (Z.to_nat (16 * h + l)))
  | _, _, _, _ => None
  end.

(** The characters of a string literal after its opening quote, up to the
    closing quote. *)
Fixpoint parseChars (s : string) : option (string * string) :=
  match s with
  | EmptyString => None
  | String c rest =>
      if Ascii.eqb c quote then Some (EmptyString, rest)
      else if Ascii.eqb c "\"%char then
        match rest with
        | String esc rest1 =>
            if Ascii.eqb esc "u"%char then
              match rest1 with
              | String h1 (String h2 (String h3 (String h4 rest2))) =>
                  match unicodeEscape h1 h2 h3 h4, parseChars rest2 with
                  | Some ch, Some (str, rest3) => Some (String ch str, rest3)
                  | _, _ => None
                  end
              | _ => None
              end
            else
              match unescape esc, parseChars rest1 with
              | Some ch, Some (str, rest2) => Some (String ch str, rest2)
              | _, _ => None
              end
        | EmptyString => None
        end
      else if charCode c <? 32 then None
      else
        match parseChars rest with
        | Some (str, rest1) => Some (String c str, rest1)
        | None => None
        end
  end.

Fixpoint hasKey (k : string) (props : list (string * JsVal)) : bool :=
  match props with
  | [] => false
  | (k', _) :: rest => String.eqb k k' || hasKey k rest
  end.

Fixpoint removeKey (k : string) (props : list (string * JsVal)) : list (string * JsVal) :=
  match props with
  | [] => []
  | (k', v) :: rest =>
      if String.eqb k k' then removeKey k rest else (k', v) :: removeKey k rest
  end.

(** A member read before the members [later]: when the key comes again the
    later value wins. *)
Definition addMember (k : string) (v : JsVal) (later : list (string * JsVal))
  : list (string * JsVal) :=
  if hasKey k later then (k, lookupKey k later) :: removeKey k later
  else (k, v) :: later.

Fixpoint parseValue (fuel : nat) (s : string) : option (JsVal * string) :=
  match fuel with
  | O => None
  | S fuel' =>
      match skipWs s with
      | EmptyString => None
      | String c rest as s' =>
          if Ascii.eqb c quote then
            match parseChars rest with
            | Some (str, r) => Some (JStr str, r)
            | None => None
            end
          else if Ascii.eqb c "["%char then
            match stripPrefix "]" (skipWs rest) with
            | Some r => Some (JArr [], r)
            | None =>
                match parseElements fuel' rest with
                | Some (vs, r) => Some (JArr vs, r)
                | None => None
                end
            end
          else if Ascii.eqb c "{"%char then
            match stripPrefix "}" (skipWs rest) with
            | Some r => Some (JObj [], r)
            | None =>
                match parseMembers fuel' rest with
                | Some (ms, r) => Some (JObj ms, r)
                | None => None
                end
            end
          else
            match stripPrefix "null" s', stripPrefix "true" s', stripPrefix "false" s' with
            | Some r, _, _ => Some (JNull, r)
            | None, Some r, _ => Some (JBool true, r)
            | None, None, Some r => Some (JBool false, r)
            | None, None, None => parseNumber s'
            end
      end
  end
with parseElements (fuel : nat) (s : string) : option (list JsVal * string) :=
  match fuel with
  | O => None
  | S fuel' =>
      match parseValue fuel' s with
      | Some (v, r) =>
          match skipWs r with
          | String c r' =>
              if Ascii.eqb c ","%char then
                match parseElements fuel' r' with
                | Some (vs, r'') => Some (v :: vs, r'')
                | None => None
                end
              else if Ascii.eqb c "]"%char then Some ([v], r')
              else None
          | EmptyString => None
          end
      | None => None
      end
  end
with parseMembers (fuel : nat) (s : string) : option (list (string * JsVal) * string) :=
  match fuel with
  | O => None
  | S fuel' =>
      match skipWs s with
      | String q r =>
          if Ascii.eqb q quote then
            match parseChars r with
            | Some (k, r1) =>
                match stripPrefix ":" (skipWs r1) with
                | Some r2 =>
                    match parseValue fuel' r2 with
                    | Some (v, r3) =>
                        match skipWs r3 with
                        | String c r4 =>
                            if Ascii.eqb c ","%char then
                              match parseMembers fuel' r4 with
                              | Some (ms, r5) => Some (addMember k v ms, r5)
                              | None => None
                              end
                            else if Ascii.eqb c "}"%char then Some ([(k, v)], r4)
                            else None
                        | EmptyString => None
                        end
                    | None => None
                    end
                | None => None
                end
            | None => None
            end
          else None
      | EmptyString => None
      end
  end.

(** [JSON.parse(text)]: one value, white space around it, nothing else. *)
Definition parse (text : string) : Completion JsVal :=
  match parseValue (2 * String.length text + 2) text with
  | Some (v, rest) =>
      match skipWs rest with
      | EmptyString => Normal v
      | String _ _ => Throw SyntaxError
      end
  | None => Throw SyntaxError
  end.

Definition hexDigit (n : Z) : ascii :=
  ascii_of_nat (Z.to_nat (if n <? 10 then 48 + n else 87 + n)).

(** How [JSON.stringify] writes one character of a string. *)
Definition escapeChar (c : ascii) : string :=
  let n := charCode c in
  if Ascii.eqb c quote then String "\" (String quote EmptyString)
  else if Ascii.eqb c "\"%char then "\\"
  else if n =? 8 then "\b"
  else if n =? 12 then "\f"
  else if n =? 10 then "\n"
  else if n =? 13 then "\r"
  else if n =? 9 then "\t"
  else if n <? 32 then "\u00" +:+ String (hexDigit (n / 16)) (String (hexDigit (n mod 16)) EmptyString)
  else String c EmptyString.

Fixpoint escapeString (s : string) : string :=
  match s with
  | EmptyString => EmptyString
  | String c rest => escapeChar c +:+ escapeString rest
  end.

Definition quoted (s : string) : string :=
  String quote (escapeString s +:+ String quote EmptyString).

Fixpoint joinWith (sep : string) (parts : list string) : string :=
  match parts with
  | [] => EmptyString
  | [x] => x
  | x :: rest => x +:+ sep +:+ joinWith sep rest
  end.

(** A number is written as an integer when it is one, otherwise as mantissa
    and exponent, which is JSON for the same number. *)
Definition numberText (m e : Z) : string :=
  if e =? 0 then pretty m else pretty m +:+ "e" +:+ pretty e.

(** The JSON text of a value.  Inside an array [undefined] is written [null];
    a property whose value is [undefined] is left out. *)
Fixpoint stringifyValue (v : JsVal) : string :=
  match v with
  | JUndefined => "undefined"
  | JNull => "null"
  | JBool b => if b then "true" else "false"
  | JNum m e => numberText m e
  | JStr s => quoted s
  | JArr elems =>
      "[" +:+ joinWith ","
        (List.map (fun x => match x with
                            | JUndefined => "null"
                            | _ => stringifyValue x
                            end) elems) +:+ "]"
  | JObj props =>
      "{" +:+ joinWith ","
        ((fix members (ps : list (string * JsVal)) : list string :=
            match ps with
            | [] => []
            | (k, x) :: rest =>
                match x with
                | JUndefined => members rest
                | _ => (quoted k +:+ ":" +:+ stringifyValue x) :: members rest
                end
            end) props) +:+ "}"
  end.

(** [JSON.stringify(value)]: no value of [JsVal] makes it throw. *)
Definition stringify (v : JsVal) : Completion string := Normal (stringifyValue v).

Lemma parseNumber_defined (s : string) (v : JsVal) (rest : string) :
  parseNumber s = Some (v, rest) -> v <> JUndefined.
Proof.
  unfold parseNumber. intros H.
  repeat case_match; simplify_eq; discriminate.
Qed.

Lemma parseValue_defined (fuel : nat) (s : string) (v : JsVal) (rest : string) :
  parseValue fuel s = Some (v, rest) -> v <> JUndefined.
Proof.
  destruct fuel as [|fuel]; [discriminate|].
  cbn [parseValue]. intros H.
  repeat case_match; simplify_eq; try discriminate.
  eapply parseNumber_defined; eassumption.
Qed.

Lemma parse_empty : exists e, parse "" = Throw e.
Proof. exists SyntaxError. reflexivity. Qed.

Lemma parse_defined (s : string) : parse s <> Normal JUndefined.
Proof.
  unfold parse. intros H.
  repeat case_match; simplify_eq.
  eapply parseValue_defined; [eassumption|reflexivity].
Qed.

(** The reference platform: this codec and a storage that accepts every
    write. *)
Definition platform : Platform := {|
  JSON_parse := parse;
  JSON_stringify := stringify;
  quotaExceeded := fun _ _ _ => false;
  JSON_parse_empty := parse_empty;
  JSON_parse_defined := parse_defined
|}.

(** The same platform with a storage that is full: every write is refused. *)
Definition fullPlatform : Platform := {|
  JSON_parse := parse;
  JSON_stringify := stringify;
  quotaExceeded := fun _ _ _ => true;
  JSON_parse_empty := parse_empty;
  JSON_parse_defined := parse_defined
|}.

End Reference.
(** ** Concrete inputs *)

Module Examples.

Import Main.

(** An entry as the content source returns it, with every field. *)
Definition fullEntry (id title url img : string) : JsVal :=
  JObj [("metadata", JObj [("tags", JArr [])]);
        ("sys", JObj [("id", JStr id); ("type", JStr "Entry")]);
        ("fields",
         JObj [("title", JStr title);
               ("url", JStr url);
               ("image",
                JObj [("sys", JObj [("id", JStr "asset"); ("type", JStr "Asset")]);
                      ("fields", JObj [("file", JObj [("url", JStr img)])])])])].

(** An entry whose fields section has no [title]. *)
Definition untitledEntry (id url : string) : JsVal :=
  JObj [("sys", JObj [("id", JStr id); ("type", JStr "Entry")]);
        ("fields", JObj [("url", JStr url)])].

(** An entry without [image]. *)
Definition plainEntry (id title url : string) : JsVal :=
  JObj [("sys", JObj [("id", JStr id); ("type", JStr "Entry")]);
        ("fields", JObj [("title", JStr title); ("url", JStr url)])].

(** A batch of three entries, the second without a title. *)
Definition batch3 : list JsVal :=
  [fullEntry "e1" "tours" "https://tours.example" "//images.example/tours.png";
   untitledEntry "e2" "https://reviews.example";
   plainEntry "e3" "accordion" "https://accordion.example"].

(** A storage holding a record written at time [900000]. *)
Definition storedRecord : gmap string string :=
  <[CACHE_TIMESTAMP_KEY := "900000"]> (<[CACHE_KEY := "[]"]> ∅).

(** A storage holding a data value that is not JSON, and no timestamp. *)
Definition brokenDataOnly : gmap string string :=
  <[CACHE_KEY := "{bad"]> ∅.

(** A storage holding a data value that is not JSON, and a timestamp. *)
Definition brokenRecord : gmap string string :=
  <[CACHE_TIMESTAMP_KEY := "900000"]> (<[CACHE_KEY := "{bad"]> ∅).

(** A storage whose timestamp value is the empty string. *)
Definition emptyStamp : gmap string string :=
  <[CACHE_TIMESTAMP_KEY := ""]> (<[CACHE_KEY := "[]"]> ∅).

(** A storage whose timestamp value has no digits. *)
Definition wordStamp : gmap string string :=
  <[CACHE_TIMESTAMP_KEY := "yesterday"]> (<[CACHE_KEY := "[]"]> ∅).

(** The event of a fetch of the projects query that returned no entry. *)
Definition emptyListEvent : CacheEvent :=
  {| queryKey := ["projects"]; stateData := JArr [] |}.

(** An event of another query. *)
Definition otherEvent : CacheEvent :=
  {| queryKey := ["settings"]; stateData := JArr [JStr "x"] |}.

(** A remote source that fails on every call. *)
Definition alwaysFails (n : nat) : Completion JsVal := Throw NetworkError.

End Examples.

(** ** Further concrete inputs *)

Module Samples.

Import Main.

(** The reference codec with a storage that refuses the timestamp key
    only. *)
Definition stampRefused : Platform := {|
  JSON_parse := Reference.parse;
  JSON_stringify := Reference.stringify;
  quotaExceeded := fun _ key _ => String.eqb key CACHE_TIMESTAMP_KEY;
  JSON_parse_empty := Reference.parse_empty;
  JSON_parse_defined := Reference.parse_defined
|}.

(** A storage holding an older record and a key of another application. *)
Definition olderRecord : gmap string string :=
  <["theme" := "dark"]>
    (<[CACHE_TIMESTAMP_KEY := "100"]> (<[CACHE_KEY := "[]"]> ∅)).

(** A storage with the data key only. *)
Definition dataOnly : gmap string string := <[CACHE_KEY := "[]"]> ∅.

(** A storage whose data value is the JSON text [null], with a timestamp. *)
Definition nullRecord : gmap string string :=
  <[CACHE_TIMESTAMP_KEY := "900000"]> (<[CACHE_KEY := "null"]> ∅).

(** A batch whose second value has no [fields] section. *)
Definition brokenBatch : list JsVal :=
  [Examples.plainEntry "e1" "tours" "https://tours.example";
   JObj [("sys", JObj [("id", JStr "e2")])];
   Examples.plainEntry "e3" "accordion" "https://accordion.example"].



End Samples.

(** ** Vocabulary of the statements about the components *)

Section ViewVocabulary.

Import View.

(** The card of a project at position [index], field by field. *)
Definition cardOf (project : JsVal) (index : nat) : Card :=
  {| key := optProp project "id";
     href := optProp project "url";
     animationDelay := pretty (Z.of_nat index * 100) +:+ "ms";
     image := if truthy (optProp project "img")
              then ImageShown (optProp project "img") (optProp project "title")
              else ImageSkipped (optProp project "img");
     heading := optProp project "title" |}.

End ViewVocabulary.

(** ** Vocabulary of the statements *)

Section Vocabulary.

Import Main.

(** A RemoteEntry: a value with a [fields] section and a [sys] section.
    Nothing is asked of the fields themselves, so an entry may lack [title],
    [url] or [image]. *)
Definition isRemoteEntry (item : JsVal) : bool :=
  negb (nullish (optProp item "fields")) && negb (nullish (optProp item "sys")).

(** The fields section of an entry. *)
Definition entryFields (item : JsVal) : JsVal := optProp item "fields".

(** The identifier in the system metadata of an entry. *)
Definition entrySysId (item : JsVal) : JsVal := optProp (optProp item "sys") "id".

(** An entry lacks field [k] when reading it from the fields section gives
    [undefined]. *)
Definition lacksField (item : JsVal) (k : string) : Prop :=
  optProp (entryFields item) k = JUndefined.

(** The Project built from an entry, field by field. *)
Definition projectOf (item : JsVal) : JsVal :=
  let fields := entryFields item in
  JObj [("title", optProp fields "title");
        ("url", optProp fields "url");
        ("id", entrySysId item);
        ("img", optProp (optProp (optProp (optProp fields "image") "fields") "file") "url")].

(** The storage once both keys are removed. *)
Definition cleared (items : gmap string string) : gmap string string :=
  delete CACHE_TIMESTAMP_KEY (delete CACHE_KEY items).

(** The age test of the hydration block on a stored timestamp. *)
Definition isFresh (now : Z) (stamp : string) : bool :=
  numLt (numSub (Num now) (parseInt stamp)) (Num CACHE_DURATION).

(** A world differing from [w] by its storage only. *)
Definition withItems (w : World) (items : gmap string string) : World :=
  {| localStorage := Items items; queryData := queryData w; console := console w |}.

(** A world differing from [w] by one more warning on the console. *)
Definition withWarning (w : World) (message : string) : World :=
  {| localStorage := localStorage w;
     queryData := queryData w;
     console := console w ++ [message] |}.

End Vocabulary.

(** ** Properties of the transform *)

Section TransformFacts.

Import Transform.

Lemma getProp_optProp (v : JsVal) (k : string) :
  nullish v = false -> getProp v k = Normal (optProp v k).
Proof. destruct v; simpl; intros H; congruence. Qed.

Lemma optProp_nullish (v : JsVal) (k : string) :
  nullish v = true -> optProp v k = JUndefined.
Proof. destruct v; simpl; intros H; congruence. Qed.

Lemma isRemoteEntry_sections (item : JsVal) :
  isRemoteEntry item = true ->
  nullish item = false /\
  nullish (optProp item "fields") = false /\
  nullish (optProp item "sys") = false.
Proof.
  unfold isRemoteEntry. intros H.
  apply andb_prop in H as [Hf Hs].
  apply negb_true_iff in Hf. apply negb_true_iff in Hs.
  repeat split; try assumption.
  destruct (nullish item) eqn:Hn; [|reflexivity].
  rewrite (optProp_nullish _ _ Hn) in Hf. discriminate.
Qed.

(** On an entry the callback returns, and what it returns is [projectOf]. *)
Lemma mapItem_entry (item : JsVal) :
  isRemoteEntry item = true -> mapItem item = Normal (projectOf item).
Proof.
  intros H. destruct (isRemoteEntry_sections _ H) as (Hi & Hf & Hs).
  unfold mapItem, projectOf, entryFields, entrySysId.
  rewrite (getProp_optProp item "fields" Hi). simpl.
  rewrite !(getProp_optProp (optProp item "fields") _ Hf). simpl.
  rewrite (getProp_optProp item "sys" Hi). simpl.
  rewrite (getProp_optProp (optProp item "sys") "id" Hs). simpl.
  reflexivity.
Qed.

(** The callback throws exactly on the values that are not entries. *)
Lemma mapItem_throws (item : JsVal) :
  isRemoteEntry item = false -> mapItem item = Throw TypeError.
Proof.
  unfold isRemoteEntry, mapItem. intros H.
  destruct item as [| | | | | |props]; try reflexivity; simpl in *.
  destruct (lookupKey "fields" props) eqn:Hf; simpl in *; try reflexivity;
    destruct (lookupKey "sys" props) eqn:Hs; simpl in *;
    try reflexivity; discriminate.
Qed.

(** On a batch of entries the map is the pointwise image under [projectOf]. *)
Lemma mappedProjects_entries (items : list JsVal) :
  Forall (fun item => isRemoteEntry item = true) items ->
  mappedProjects items = Normal (projectOf <$> items).
Proof.
  unfold mappedProjects. induction 1 as [|item rest Hitem _ IH]; simpl.
  - reflexivity.
  - rewrite (mapItem_entry _ Hitem). simpl. rewrite IH. reflexivity.
Qed.

(** The same at the level of [fetchProjects]: a response whose [items] are
    entries resolves to the pointwise image. *)
Lemma fetchProjects_entries (response : JsVal) (items : list JsVal) :
  optProp response "items" = JArr items ->
  Forall (fun item => isRemoteEntry item = true) items ->
  fetchProjects (Normal response) = Normal (JArr (projectOf <$> items)).
Proof.
  intros Hitems Hall. unfold fetchProjects. simpl.
  rewrite getProp_optProp.
  - rewrite Hitems. simpl. rewrite (mappedProjects_entries _ Hall). reflexivity.
  - destruct response; simpl in *; try reflexivity; discriminate.
Qed.

(** The fields of a Project read back. *)
Lemma projectOf_fields (item : JsVal) :
  getProp (projectOf item) "title" = Normal (optProp (entryFields item) "title") /\
  getProp (projectOf item) "url" = Normal (optProp (entryFields item) "url") /\
  getProp (projectOf item) "id" = Normal (entrySysId item) /\
  getProp (projectOf item) "img" =
    Normal (optProp (optProp (optProp (optProp (entryFields item) "image")
                                       "fields") "file") "url").
Proof. repeat split. Qed.

(** C1 as the specification words it fails on the batch [batch3]: its three
    values are entries and the second has no [title]; the transform returns
    three Projects, and the title of the second is [undefined], not the empty
    string. *)
Lemma C1_missing_title_is_undefined_not_empty :
  Forall (fun item => isRemoteEntry item = true) Examples.batch3 /\
  lacksField (Examples.untitledEntry "e2" "https://reviews.example") "title" /\
  Examples.batch3 !! 1%nat = Some (Examples.untitledEntry "e2" "https://reviews.example") /\
  exists p1 p2 p3,
    mappedProjects Examples.batch3 = Normal [p1; p2; p3] /\
    getProp p2 "title" = Normal JUndefined /\
    getProp p2 "title" <> Normal (JStr "").
Proof.
  split; [repeat constructor|].
  split; [reflexivity|].
  split; [reflexivity|].
  do 3 eexists. split; [reflexivity|].
  split; [reflexivity|discriminate].
Qed.

(** C1, amended: on every batch of entries the transform returns a Project
    list of the same length, and an entry that lacks [title] (or [url]) gives,
    at its own position, a Project whose [title] (or [url]) is [undefined]:
    the entry is not dropped and nothing is thrown. *)
Theorem C1_missing_required_field_passes_through (items : list JsVal) :
  Forall (fun item => isRemoteEntry item = true) items ->
  exists projects,
    mappedProjects items = Normal projects /\
    List.length projects = List.length items /\
    forall (i : nat) (item : JsVal),
      items !! i = Some item ->
      exists project,
        projects !! i = Some project /\
        (lacksField item "title" -> getProp project "title" = Normal JUndefined) /\
        (lacksField item "url" -> getProp project "url" = Normal JUndefined).
Proof.
  intros Hall. exists (projectOf <$> items).
  split; [apply mappedProjects_entries; assumption|].
  split; [apply length_fmap|].
  intros i item Hi. exists (projectOf item).
  split; [rewrite list_lookup_fmap, Hi; reflexivity|].
  destruct (projectOf_fields item) as (Ht & Hu & _).
  split; intros Hlack; unfold lacksField in Hlack.
  - rewrite Ht, Hlack. reflexivity.
  - rewrite Hu, Hlack. reflexivity.
Qed.

Lemma C1_missing_required_field_witness :
  exists projects project,
    mappedProjects Examples.batch3 = Normal projects /\
    List.length projects = 3%nat /\
    projects !! 1%nat = Some project /\
    getProp project "title" = Normal JUndefined.
Proof.
  destruct (C1_missing_required_field_passes_through Examples.batch3)
    as (projects & Hrun & Hlen & Heach).
  - repeat constructor.
  - destruct (Heach 1%nat (Examples.untitledEntry "e2" "https://reviews.example") eq_refl)
      as (project & Hproject & Htitle & _).
    exists projects, project.
    split; [exact Hrun|]. split; [exact Hlen|]. split; [exact Hproject|].
    apply Htitle. reflexivity.
Defined.

(** C5: an entry without the optional [image] field gives a Project whose
    [img] is [undefined], whose [id] is the [id] of the system metadata and
    whose [title] and [url] are those of the fields section; the callback
    returns, and the entry stays in the result of the map. *)
Theorem C5_missing_image_gives_no_img (item : JsVal) :
  isRemoteEntry item = true ->
  lacksField item "image" ->
  exists project,
    mapItem item = Normal project /\
    mappedProjects [item] = Normal [project] /\
    getProp project "img" = Normal JUndefined /\
    getProp project "id" = Normal (entrySysId item) /\
    getProp project "title" = Normal (optProp (entryFields item) "title") /\
    getProp project "url" = Normal (optProp (entryFields item) "url").
Proof.
  intros Hentry Himage. exists (projectOf item).
  destruct (projectOf_fields item) as (Ht & Hu & Hid & Himg).
  split; [apply mapItem_entry; assumption|].
  split.
  - unfold mappedProjects. simpl. rewrite (mapItem_entry _ Hentry). reflexivity.
  - repeat split; try assumption.
    rewrite Himg. unfold lacksField in Himage. rewrite Himage. reflexivity.
Qed.

Lemma C5_missing_image_witness :
  exists project,
    mapItem (Examples.plainEntry "e3" "accordion" "https://accordion.example") = Normal project /\
    getProp project "img" = Normal JUndefined /\
    getProp project "id" = Normal (JStr "e3") /\
    getProp project "title" = Normal (JStr "accordion") /\
    getProp project "url" = Normal (JStr "https://accordion.example").
Proof.
  destruct (C5_missing_image_gives_no_img
              (Examples.plainEntry "e3" "accordion" "https://accordion.example")
              eq_refl eq_refl)
    as (project & Hmap & _ & Himg & Hid & Ht & Hu).
  exists project. repeat split; assumption.
Defined.

(** C6: on every sequence of entries the transform returns a sequence of the
    same length whose i-th Project is what the callback returns on the i-th
    entry: nothing is dropped, duplicated or moved. *)
Theorem C6_transform_one_to_one_in_order (response : JsVal) (items : list JsVal) :
  optProp response "items" = JArr items ->
  Forall (fun item => isRemoteEntry item = true) items ->
  exists projects,
    fetchProjects (Normal response) = Normal (JArr projects) /\
    mappedProjects items = Normal projects /\
    List.length projects = List.length items /\
    forall (i : nat) (item : JsVal),
      items !! i = Some item ->
      exists project,
        projects !! i = Some project /\
        mapItem item = Normal project /\
        getProp project "id" = Normal (entrySysId item).
Proof.
  intros Hitems Hall. exists (projectOf <$> items).
  split; [apply fetchProjects_entries; assumption|].
  split; [apply mappedProjects_entries; assumption|].
  split; [apply length_fmap|].
  intros i item Hi. exists (projectOf item).
  split; [rewrite list_lookup_fmap, Hi; reflexivity|].
  split; [|reflexivity].
  apply mapItem_entry.
  exact (Forall_lookup_1 _ _ _ _ Hall Hi).
Qed.

Lemma C6_transform_witness :
  exists projects,
    fetchProjects (Normal (JObj [("total", JNum 3 0); ("items", JArr Examples.batch3)]))
      = Normal (JArr projects) /\
    mappedProjects Examples.batch3 = Normal projects /\
    List.length projects = List.length Examples.batch3 /\
    forall (i : nat) (item : JsVal),
      Examples.batch3 !! i = Some item ->
      exists project,
        projects !! i = Some project /\
        mapItem item = Normal project /\
        getProp project "id" = Normal (entrySysId item).
Proof.
  apply (C6_transform_one_to_one_in_order
           (JObj [("total", JNum 3 0); ("items", JArr Examples.batch3)])
           Examples.batch3).
  - reflexivity.
  - repeat constructor.
Defined.

End TransformFacts.

(** ** Properties of the hydration block *)

Section HydrationFacts.

Import Browser Main.

Variable P : Platform.

Lemma isFresh_Num (now : Z) (stamp : string) (storedAt : Z) :
  parseInt stamp = Num storedAt ->
  isFresh now stamp = true <-> now - storedAt < CACHE_DURATION.
Proof.
  intros Hp. unfold isFresh. rewrite Hp. simpl. apply Z.ltb_lt.
Qed.

Lemma isFresh_NaN (now : Z) (stamp : string) :
  parseInt stamp = NaN -> isFresh now stamp = false.
Proof. intros Hp. unfold isFresh. rewrite Hp. reflexivity. Qed.

Lemma truthy_JStr (s : string) : truthy (JStr s) = true <-> s <> "".
Proof.
  simpl. rewrite negb_true_iff. split.
  - intros H Heq. subst s. discriminate.
  - intros H. destruct s; [congruence | reflexivity].
Qed.

Lemma parseInt_Num_nonempty (stamp : string) (z : Z) :
  parseInt stamp = Num z -> stamp <> "".
Proof. intros H Heq. subst stamp. discriminate. Qed.

Lemma JSON_parse_Normal_nonempty (text : string) (v : JsVal) :
  JSON_parse P text = Normal v -> text <> "".
Proof.
  intros H Heq. subst text.
  destruct (JSON_parse_empty P) as [e He]. congruence.
Qed.

(** What the hydration block does on an accessible storage, case by case. *)
Lemma hydrate_Items (now : Z) (items : gmap string string)
    (cache : gmap (list string) JsVal) (log : list string) :
  hydrate P now {| localStorage := Items items; queryData := cache; console := log |} =
  (Normal tt,
   match items !! CACHE_KEY, items !! CACHE_TIMESTAMP_KEY with
   | Some blob, Some stamp =>
       if truthy (JStr blob) && truthy (JStr stamp) then
         if isFresh now stamp then
           match JSON_parse P blob with
           | Normal parsed =>
               {| localStorage := Items items;
                  queryData := match parsed with
                               | JUndefined => cache
                               | _ => <[projectsKey := parsed]> cache
                               end;
                  console := log |}
           | Throw _ =>
               {| localStorage := Items (cleared items);
                  queryData := cache;
                  console := log ++ [restoreWarning] |}
           end
         else
           {| localStorage := Items (cleared items); queryData := cache; console := log |}
       else {| localStorage := Items items; queryData := cache; console := log |}
   | _, _ => {| localStorage := Items items; queryData := cache; console := log |}
   end).
Proof.
  unfold hydrate, tryCatch, bind, getItem, localStorageRef, ret, isFresh. simpl.
  destruct (items !! CACHE_KEY) as [blob|]; [|reflexivity].
  destruct (items !! CACHE_TIMESTAMP_KEY) as [stamp|]; [|reflexivity].
  destruct (negb (blob =? "")%string && negb (stamp =? "")%string); [|reflexivity].
  destruct (numLt _ _); [|reflexivity].
  unfold lift. destruct (JSON_parse P blob) as [parsed|e]; [|reflexivity].
  destruct parsed; reflexivity.
Qed.

(** On a storage that cannot be accessed the handler itself throws. *)
Lemma hydrate_Denied (now : Z) (cache : gmap (list string) JsVal) (log : list string) :
  hydrate P now {| localStorage := Denied; queryData := cache; console := log |} =
  (Throw SecurityError,
   {| localStorage := Denied; queryData := cache; console := log ++ [restoreWarning] |}).
Proof. reflexivity. Qed.

(** C2: a stored record whose data blob parses and whose timestamp parses
    to [storedAt] seeds the query cache under ["projects"] with the parsed
    data exactly when [now - storedAt < CACHE_DURATION], the storage being
    left as it was; otherwise both keys are deleted and the query cache stays
    empty.  [CACHE_DURATION] is five minutes. *)
Theorem C2_hydrate_seeds_iff_fresh (now : Z) (items : gmap string string)
    (blob stamp : string) (parsed : JsVal) (storedAt : Z) :
  items !! CACHE_KEY = Some blob ->
  items !! CACHE_TIMESTAMP_KEY = Some stamp ->
  JSON_parse P blob = Normal parsed ->
  parseInt stamp = Num storedAt ->
  CACHE_DURATION = 5 * 60 * 1000 /\
  exists w',
    hydrate P now (startWorld (Items items)) = (Normal tt, w') /\
    (queryData w' !! projectsKey = Some parsed <-> now - storedAt < CACHE_DURATION) /\
    (now - storedAt < CACHE_DURATION ->
       localStorage w' = Items items /\ queryData w' = {[ projectsKey := parsed ]}) /\
    (now - storedAt >= CACHE_DURATION ->
       localStorage w' = Items (cleared items) /\ queryData w' = ∅).
Proof.
  intros Hblob Hstamp Hparse Hint. split; [reflexivity|].
  pose proof (JSON_parse_Normal_nonempty _ _ Hparse) as Hb.
  pose proof (parseInt_Num_nonempty _ _ Hint) as Hs.
  apply truthy_JStr in Hb. apply truthy_JStr in Hs.
  pose proof (isFresh_Num now stamp storedAt Hint) as Hfresh.
  assert (parsed <> JUndefined) as Hdef.
  { intros ->. exact (JSON_parse_defined P blob Hparse). }
  eexists. split.
  { unfold startWorld. rewrite hydrate_Items, Hblob, Hstamp, Hb, Hs, Hparse.
    simpl. reflexivity. }
  destruct (isFresh now stamp) eqn:Hf.
  - assert (now - storedAt < CACHE_DURATION) as Hlt by (apply Hfresh; reflexivity).
    assert (match parsed with
            | JUndefined => (∅ : gmap (list string) JsVal)
            | _ => <[projectsKey := parsed]> ∅
            end = {[ projectsKey := parsed ]}) as Hq.
    { destruct parsed; try reflexivity. congruence. }
    simpl. rewrite Hq. split; [|split].
    + split; [intros _; exact Hlt | intros _; apply lookup_singleton_eq].
    + intros _. split; reflexivity.
    + intros Hge. lia.
  - assert (~ now - storedAt < CACHE_DURATION) as Hge.
    { intros Hlt. apply Hfresh in Hlt. congruence. }
    simpl. split; [|split].
    + split; [intros Hl; rewrite lookup_empty in Hl; discriminate | intros Hlt; contradiction].
    + intros Hlt. contradiction.
    + intros _. split; reflexivity.
Qed.

(** C3, amended: on every state of an accessible storage the hydration block
    returns without throwing; when both keys hold non-empty strings and the
    data value is rejected by [JSON.parse], both keys are deleted and nothing
    is seeded. *)
Theorem C3_hydrate_total_and_clears_unparsable (now : Z) (items : gmap string string) :
  exists w',
    hydrate P now (startWorld (Items items)) = (Normal tt, w') /\
    forall (blob stamp : string) (e : Exn),
      items !! CACHE_KEY = Some blob ->
      items !! CACHE_TIMESTAMP_KEY = Some stamp ->
      blob <> "" ->
      stamp <> "" ->
      JSON_parse P blob = Throw e ->
      localStorage w' = Items (cleared items) /\ queryData w' = ∅.
Proof.
  eexists. split.
  { unfold startWorld. rewrite hydrate_Items. reflexivity. }
  intros blob stamp e Hblob Hstamp Hb Hs Hparse.
  apply truthy_JStr in Hb. apply truthy_JStr in Hs.
  rewrite Hblob, Hstamp, Hb, Hs, Hparse. simpl.
  destruct (isFresh now stamp); split; reflexivity.
Qed.

(** C10, amended: when both keys are present and the timestamp string has no
    integer prefix, the age test is false and nothing is seeded; when moreover
    both stored strings are non-empty, the stale branch runs: both keys are
    deleted, nothing is logged and nothing is thrown. *)
Theorem C10_hydrate_NaN_timestamp (now : Z) (items : gmap string string)
    (blob stamp : string) :
  items !! CACHE_KEY = Some blob ->
  items !! CACHE_TIMESTAMP_KEY = Some stamp ->
  parseInt stamp = NaN ->
  isFresh now stamp = false /\
  exists w',
    hydrate P now (startWorld (Items items)) = (Normal tt, w') /\
    queryData w' = ∅ /\
    (blob <> "" -> stamp <> "" ->
       w' = {| localStorage := Items (cleared items); queryData := ∅; console := [] |}).
Proof.
  intros Hblob Hstamp Hnan.
  pose proof (isFresh_NaN now stamp Hnan) as Hf.
  split; [exact Hf|].
  eexists. split.
  { unfold startWorld. rewrite hydrate_Items, Hblob, Hstamp, Hf. reflexivity. }
  split.
  - destruct (truthy (JStr blob) && truthy (JStr stamp)); reflexivity.
  - intros Hb Hs. apply truthy_JStr in Hb. apply truthy_JStr in Hs.
    rewrite Hb, Hs. reflexivity.
Qed.

End HydrationFacts.

(** C4: the duration the hydration block compares the age with is the
    [staleTime] of the query client, and both are five minutes in
    milliseconds. *)
Theorem C4_CACHE_DURATION_is_staleTime :
  Main.CACHE_DURATION = Main.staleTime Main.defaultOptions /\
  Main.CACHE_DURATION = 1000 * 60 * 5 /\
  Main.staleTime Main.defaultOptions = 1000 * 60 * 5 /\
  1000 * 60 * 5 = 300000.
Proof. repeat split. Qed.

(** ** The hydration block on concrete storages *)

Section HydrationRuns.

Import Browser Main.

Lemma C2_hydrate_seeds_iff_fresh_witness :
  CACHE_DURATION = 5 * 60 * 1000 /\
  exists w',
    hydrate Reference.platform 1000000 (startWorld (Items Examples.storedRecord))
      = (Normal tt, w') /\
    (queryData w' !! projectsKey = Some (JArr []) <-> 1000000 - 900000 < CACHE_DURATION) /\
    (1000000 - 900000 < CACHE_DURATION ->
       localStorage w' = Items Examples.storedRecord /\
       queryData w' = {[ projectsKey := JArr [] ]}) /\
    (1000000 - 900000 >= CACHE_DURATION ->
       localStorage w' = Items (cleared Examples.storedRecord) /\ queryData w' = ∅).
Proof.
  apply (C2_hydrate_seeds_iff_fresh Reference.platform 1000000 Examples.storedRecord
           "[]" "900000" (JArr []) 900000); reflexivity.
Defined.

(** The freshness boundary: one millisecond before the record is five
    minutes old it is restored, and once it is five minutes old it is
    removed. *)
Example hydrate_boundary_fresh :
  hydrate Reference.platform (900000 + CACHE_DURATION - 1)
    (startWorld (Items Examples.storedRecord))
  = (Normal tt,
     {| localStorage := Items Examples.storedRecord;
        queryData := {[ projectsKey := JArr [] ]};
        console := [] |}).
Proof. unfold startWorld. rewrite hydrate_Items. reflexivity. Qed.

Example hydrate_boundary_stale :
  hydrate Reference.platform (900000 + CACHE_DURATION)
    (startWorld (Items Examples.storedRecord))
  = (Normal tt,
     {| localStorage := Items (cleared Examples.storedRecord);
        queryData := ∅;
        console := [] |}).
Proof. unfold startWorld. rewrite hydrate_Items. reflexivity. Qed.

(** A stored value that is JSON but not a list of Projects is restored as it
    is: the hydration block does not look at the shape of what it parsed. *)
Example hydrate_any_json_is_seeded :
  hydrate Reference.platform 1000000
    (startWorld (Items (<[CACHE_TIMESTAMP_KEY := "900000"]> (<[CACHE_KEY := "42"]> ∅))))
  = (Normal tt,
     {| localStorage := Items (<[CACHE_TIMESTAMP_KEY := "900000"]> (<[CACHE_KEY := "42"]> ∅));
        queryData := {[ projectsKey := JNum 42 0 ]};
        console := [] |}).
Proof. unfold startWorld. rewrite hydrate_Items. reflexivity. Qed.

(** C3 as the specification words it fails on the storage [brokenDataOnly]:
    the data value is rejected by [JSON.parse], there is no timestamp, and the
    hydration block leaves the storage as it is, data key included. *)
Lemma C3_unparsable_data_without_timestamp_kept :
  JSON_parse Reference.platform "{bad" = Throw SyntaxError /\
  Examples.brokenDataOnly !! CACHE_KEY = Some "{bad" /\
  hydrate Reference.platform 1000000 (startWorld (Items Examples.brokenDataOnly))
    = (Normal tt, startWorld (Items Examples.brokenDataOnly)) /\
  Items Examples.brokenDataOnly <> Items (cleared Examples.brokenDataOnly).
Proof.
  split; [reflexivity|]. split; [reflexivity|]. split.
  - unfold startWorld. rewrite hydrate_Items. reflexivity.
  - intros Heq.
    apply (f_equal (fun st => match st with
                              | Items m => m !! CACHE_KEY
                              | Denied => None
                              end)) in Heq.
    vm_compute in Heq. discriminate.
Qed.

Lemma C3_hydrate_total_and_clears_unparsable_witness :
  exists w',
    hydrate Reference.platform 1000000 (startWorld (Items Examples.brokenRecord))
      = (Normal tt, w') /\
    localStorage w' = Items (cleared Examples.brokenRecord) /\
    queryData w' = ∅.
Proof.
  destruct (C3_hydrate_total_and_clears_unparsable Reference.platform 1000000
              Examples.brokenRecord) as [w' [Hrun Hclear]].
  exists w'. split; [exact Hrun|].
  apply (Hclear "{bad" "900000" SyntaxError);
    first [reflexivity | discriminate].
Defined.

(** C10 as written fails on the storage [emptyStamp]: both keys are present,
    the timestamp value is the empty string, on which [parseInt] gives [NaN],
    and the hydration block deletes nothing. *)
Lemma C10_empty_timestamp_deletes_nothing :
  Examples.emptyStamp !! CACHE_KEY = Some "[]" /\
  Examples.emptyStamp !! CACHE_TIMESTAMP_KEY = Some "" /\
  parseInt "" = NaN /\
  hydrate Reference.platform 1000000 (startWorld (Items Examples.emptyStamp))
    = (Normal tt, startWorld (Items Examples.emptyStamp)) /\
  Items Examples.emptyStamp <> Items (cleared Examples.emptyStamp).
Proof.
  split; [reflexivity|]. split; [reflexivity|]. split; [reflexivity|]. split.
  - unfold startWorld. rewrite hydrate_Items. reflexivity.
  - intros Heq.
    apply (f_equal (fun st => match st with
                              | Items m => m !! CACHE_KEY
                              | Denied => None
                              end)) in Heq.
    vm_compute in Heq. discriminate.
Qed.

Lemma C10_hydrate_NaN_timestamp_witness :
  isFresh 1000000 "yesterday" = false /\
  exists w',
    hydrate Reference.platform 1000000 (startWorld (Items Examples.wordStamp))
      = (Normal tt, w') /\
    queryData w' = ∅ /\
    w' = {| localStorage := Items (cleared Examples.wordStamp);
            queryData := ∅;
            console := [] |}.
Proof.
  destruct (C10_hydrate_NaN_timestamp Reference.platform 1000000 Examples.wordStamp
              "[]" "yesterday" eq_refl eq_refl eq_refl)
    as [Hfresh [w' (Hrun & Hempty & Hstale)]].
  split; [exact Hfresh|].
  exists w'. split; [exact Hrun|]. split; [exact Hempty|].
  apply Hstale; discriminate.
Defined.

End HydrationRuns.

(** ** Properties of the persistence subscriber *)

Section PersistenceFacts.

Import Browser Main.

Variable P : Platform.

Lemma shouldPersist_true (event : CacheEvent) :
  shouldPersist event = true <->
  head (queryKey event) = Some "projects" /\ truthy (stateData event) = true.
Proof.
  unfold shouldPersist. destruct (head (queryKey event)) as [k|].
  - rewrite andb_true_iff, String.eqb_eq. split.
    + intros [-> Ht]. split; [reflexivity | exact Ht].
    + intros [Hk Ht]. split; [congruence | exact Ht].
  - split; [discriminate | intros [Hk _]; discriminate].
Qed.

(** The writes touch neither the query cache nor the console, whatever
    their outcome. *)
Lemma persistWrites_frame (now : Z) (event : CacheEvent) (w w1 : World)
    (c : Completion unit) :
  persistWrites P now event w = (c, w1) ->
  queryData w1 = queryData w /\ console w1 = console w.
Proof.
  destruct w as [storage cache log].
  cbv [persistWrites setItem localStorageRef setItems lift bind
       localStorage queryData console].
  destruct storage as [|items];
    [intros Heq; simplify_eq; split; reflexivity|].
  destruct (JSON_stringify P (stateData event)) as [text|e];
    [|intros Heq; simplify_eq; split; reflexivity].
  destruct (quotaExceeded P items CACHE_KEY text);
    [intros Heq; simplify_eq; split; reflexivity|].
  destruct (quotaExceeded P _ CACHE_TIMESTAMP_KEY (pretty now));
    intros Heq; simplify_eq; split; reflexivity.
Qed.

(** When nothing fails both keys are written, the data first. *)
Lemma persistWrites_ok (now : Z) (event : CacheEvent) (w : World)
    (items : gmap string string) (text : string) :
  localStorage w = Items items ->
  JSON_stringify P (stateData event) = Normal text ->
  quotaExceeded P items CACHE_KEY text = false ->
  quotaExceeded P (<[CACHE_KEY := text]> items) CACHE_TIMESTAMP_KEY (pretty now) = false ->
  persistWrites P now event w =
  (Normal tt,
   withItems w (<[CACHE_TIMESTAMP_KEY := pretty now]> (<[CACHE_KEY := text]> items))).
Proof.
  intros Hst Htext Hq1 Hq2.
  destruct w as [storage cache log]. simpl in Hst. subst storage.
  cbv [persistWrites setItem localStorageRef setItems lift bind withItems
       localStorage queryData console].
  rewrite Htext, Hq1, Hq2. reflexivity.
Qed.

(** C7, amended: the subscriber leaves the world, durable storage included,
    as it is when the first element of the query key is not ["projects"] or
    the data of the query is falsy ([undefined], [null], [false], [0], the
    empty string); when the first element is ["projects"] and the data is
    truthy, which an empty array is, and no write fails, it writes the
    serialized data under the data key and the current time under the
    timestamp key, and changes nothing else. *)
Theorem C7_persist_when_projects_and_truthy (now : Z) (event : CacheEvent) (w : World) :
  (head (queryKey event) <> Some "projects" \/ truthy (stateData event) = false ->
     onCacheEvent P now event w = (Normal tt, w)) /\
  (forall (items : gmap string string) (text : string),
     head (queryKey event) = Some "projects" ->
     truthy (stateData event) = true ->
     localStorage w = Items items ->
     JSON_stringify P (stateData event) = Normal text ->
     quotaExceeded P items CACHE_KEY text = false ->
     quotaExceeded P (<[CACHE_KEY := text]> items) CACHE_TIMESTAMP_KEY (pretty now) = false ->
     onCacheEvent P now event w =
     (Normal tt,
      withItems w (<[CACHE_TIMESTAMP_KEY := pretty now]> (<[CACHE_KEY := text]> items)))).
Proof.
  split.
  - intros Hno. unfold onCacheEvent.
    destruct (shouldPersist event) eqn:Hg; [|reflexivity].
    apply shouldPersist_true in Hg as [Hk Ht].
    destruct Hno as [Hno|Hno]; congruence.
  - intros items text Hk Ht Hst Htext Hq1 Hq2. unfold onCacheEvent.
    rewrite (proj2 (shouldPersist_true event) (conj Hk Ht)).
    unfold tryCatch. rewrite (persistWrites_ok now event w items text); auto.
Qed.

(** C8: whatever makes a write of the persistence step fail, the subscriber
    returns normally; the exception is caught, the warning is logged on the
    console, and the data of the query cache is left untouched. *)
Theorem C8_persist_failure_is_contained (now : Z) (event : CacheEvent) (w : World) :
  exists w',
    onCacheEvent P now event w = (Normal tt, w') /\
    queryData w' = queryData w /\
    forall (e : Exn) (w1 : World),
      shouldPersist event = true ->
      persistWrites P now event w = (Throw e, w1) ->
      w' = withWarning w1 persistWarning /\
      console w' = (console w ++ [persistWarning])%list.
Proof.
  unfold onCacheEvent. destruct (shouldPersist event).
  - unfold tryCatch.
    destruct (persistWrites P now event w) as [[[]|e] w1] eqn:Hrun;
      destruct (persistWrites_frame _ _ _ _ _ Hrun) as [Hq Hc].
    + exists w1. split; [reflexivity|]. split; [exact Hq|].
      intros e' w1' _ Heq. discriminate.
    + exists (withWarning w1 persistWarning). split; [reflexivity|].
      split; [exact Hq|].
      intros e' w1' _ Heq. simplify_eq. split; [reflexivity|].
      simpl. rewrite Hc. reflexivity.
  - exists w. split; [reflexivity|]. split; [reflexivity|].
    intros e w1 Hg. discriminate.
Qed.

End PersistenceFacts.

(** ** The subscriber on concrete events *)

Section PersistenceRuns.

Import Browser Main.

(** C7 as the specification words it fails on the event [emptyListEvent]: the
    key is ["projects"], the data is the empty list, and the subscriber
    writes both keys to a storage that was empty. *)
Lemma C7_empty_list_is_persisted :
  queryKey Examples.emptyListEvent = ["projects"] /\
  stateData Examples.emptyListEvent = JArr [] /\
  onCacheEvent Reference.platform 1000000 Examples.emptyListEvent (startWorld (Items ∅))
    = (Normal tt,
       startWorld (Items (<[CACHE_TIMESTAMP_KEY := "1000000"]> (<[CACHE_KEY := "[]"]> ∅)))) /\
  Items (<[CACHE_TIMESTAMP_KEY := "1000000"]> (<[CACHE_KEY := "[]"]> ∅)) <> Items ∅.
Proof.
  split; [reflexivity|]. split; [reflexivity|]. split; [reflexivity|].
  intros Heq.
  apply (f_equal (fun st => match st with
                            | Items m => m !! CACHE_KEY
                            | Denied => None
                            end)) in Heq.
  vm_compute in Heq. discriminate.
Qed.

Lemma C7_persist_when_projects_and_truthy_witness :
  onCacheEvent Reference.platform 1000000 Examples.otherEvent (startWorld (Items ∅))
    = (Normal tt, startWorld (Items ∅)) /\
  onCacheEvent Reference.platform 1000000
    {| queryKey := ["projects"]; stateData := JArr [JStr "tours"] |}
    (startWorld (Items ∅))
    = (Normal tt,
       withItems (startWorld (Items ∅))
         (<[CACHE_TIMESTAMP_KEY := pretty 1000000]>
            (<[CACHE_KEY := Reference.stringifyValue (JArr [JStr "tours"])]> ∅))).
Proof.
  split.
  - apply (C7_persist_when_projects_and_truthy Reference.platform 1000000
             Examples.otherEvent (startWorld (Items ∅))).
    left. discriminate.
  - apply (C7_persist_when_projects_and_truthy Reference.platform 1000000
             {| queryKey := ["projects"]; stateData := JArr [JStr "tours"] |}
             (startWorld (Items ∅))); reflexivity.
Defined.

Lemma C8_persist_failure_is_contained_witness :
  exists w',
    onCacheEvent Reference.fullPlatform 1000000
      {| queryKey := ["projects"]; stateData := JArr [JStr "tours"] |}
      (startWorld (Items ∅)) = (Normal tt, w') /\
    queryData w' = ∅ /\
    w' = withWarning (startWorld (Items ∅)) persistWarning /\
    console w' = [persistWarning].
Proof.
  destruct (C8_persist_failure_is_contained Reference.fullPlatform 1000000
              {| queryKey := ["projects"]; stateData := JArr [JStr "tours"] |}
              (startWorld (Items ∅))) as [w' (Hrun & Hcache & Hcaught)].
  exists w'. split; [exact Hrun|]. split; [exact Hcache|].
  apply (Hcaught QuotaExceededError (startWorld (Items ∅))); reflexivity.
Defined.

(** A storage that cannot be accessed is contained in the same way. *)
Example onCacheEvent_denied :
  onCacheEvent Reference.platform 1000000
    {| queryKey := ["projects"]; stateData := JArr [JStr "tours"] |}
    (startWorld Denied)
  = (Normal tt, withWarning (startWorld Denied) persistWarning).
Proof. reflexivity. Qed.

(** A fetched list survives a reload within five minutes: what the
    subscriber wrote is what the hydration block restores.  The [img]
    property, [undefined] in the Project, is not written and reads as
    [undefined] again from the restored object. *)
Example persist_then_hydrate :
  let project := JObj [("title", JStr "T"); ("url", JStr "https://x");
                       ("id", JStr "a"); ("img", JUndefined)] in
  let restored := JObj [("title", JStr "T"); ("url", JStr "https://x");
                        ("id", JStr "a")] in
  exists w1 w2,
    onCacheEvent Reference.platform 1000000
      {| queryKey := ["projects"]; stateData := JArr [project] |}
      (startWorld (Items ∅)) = (Normal tt, w1) /\
    hydrate Reference.platform (1000000 + 1000) (startWorld (localStorage w1))
      = (Normal tt, w2) /\
    queryData w2 !! projectsKey = Some (JArr [restored]) /\
    optProp restored "img" = optProp project "img".
Proof.
  simpl. eexists. eexists.
  split; [reflexivity|].
  split; [vm_compute; reflexivity|].
  split; reflexivity.
Qed.

End PersistenceRuns.

(** ** Properties of the retry policy and of the hook *)

Section HookFacts.

Import Transform Main Hook.

(** A rejected [getEntries] rejects [fetchProjects] with the same error. *)
Lemma fetchProjects_rejected (e : Exn) : fetchProjects (Throw e) = Throw e.
Proof. reflexivity. Qed.

(** The query function is called at most [retry + 1] times in a cycle. *)
Lemma runQueryFn_calls (retriesLeft : nat) (queryFn : nat -> Completion JsVal)
    (failureCount : nat) :
  (failureCount < snd (runQueryFn retriesLeft queryFn failureCount)
                    <= failureCount + retriesLeft + 1)%nat.
Proof.
  revert failureCount. induction retriesLeft as [|r IH]; intros n; simpl.
  - destruct (queryFn n); simpl; lia.
  - destruct (queryFn n); simpl; [lia|].
    specialize (IH (S n)). lia.
Qed.

(** C9: the [retry] option of the query client is 1; when the remote call
    fails and the one repeated call fails as well, the query function has
    been called exactly twice, the query keeps the data it had, and the hook
    returns that data, or the empty list when there was none, with
    [loading] false: a record, not an exception. *)
Theorem C9_one_retry_then_last_known_data (responses : nat -> Completion JsVal)
    (st : QueryState) (e0 e1 : Exn) :
  responses 0%nat = Throw e0 ->
  responses 1%nat = Throw e1 ->
  retry defaultOptions = 1%nat /\
  exists st',
    fetchCycle defaultOptions (fun n => fetchProjects (responses n)) st = (st', 2%nat) /\
    data st' = data st /\
    useFetchProjects st' =
      {| loading := false;
         projects := match data st with
                     | JUndefined => JArr []
                     | v => v
                     end |}.
Proof.
  intros H0 H1. split; [reflexivity|].
  exists {| data := data st; status := Failed |}.
  split; [|split; reflexivity].
  unfold fetchCycle. simpl. rewrite H0. simpl. rewrite H1. reflexivity.
Qed.

Lemma C9_one_retry_then_last_known_data_witness :
  retry defaultOptions = 1%nat /\
  exists st',
    fetchCycle defaultOptions (fun n => fetchProjects (Examples.alwaysFails n))
      {| data := JUndefined; status := Pending |} = (st', 2%nat) /\
    data st' = JUndefined /\
    useFetchProjects st' = {| loading := false; projects := JArr [] |}.
Proof.
  apply (C9_one_retry_then_last_known_data Examples.alwaysFails
           {| data := JUndefined; status := Pending |}
           NetworkError NetworkError); reflexivity.
Defined.

(** A fresh query client holds no data for the query. *)
Example initialState_empty :
  initialState ∅ = {| data := JUndefined; status := Pending |}.
Proof. reflexivity. Qed.

(** With data restored by the hydration block the hook keeps showing it
    after the failed cycle. *)
Example useFetchProjects_after_failure_with_cache :
  useFetchProjects
    (fst (fetchCycle defaultOptions (fun n => fetchProjects (Examples.alwaysFails n))
            (initialState {[ projectsKey := JArr [JStr "kept"] ]})))
  = {| loading := false; projects := JArr [JStr "kept"] |}.
Proof. reflexivity. Qed.

End HookFacts.

(** ** The timestamp written and read back *)

Section TimestampFacts.

Import Main.

Lemma digitValue_pretty_N_char (d : N) :
  (d < 10)%N -> digitValue (pretty_N_char d) = Some (Z.of_N d).
Proof.
  intros Hd.
  assert (d = 0 \/ d = 1 \/ d = 2 \/ d = 3 \/ d = 4 \/ d = 5 \/ d = 6 \/ d = 7
          \/ d = 8 \/ d = 9)%N as Hcases by lia.
  repeat (destruct Hcases as [-> | Hcases]; [reflexivity|]).
  subst d. reflexivity.
Qed.

(** Reading the digits of [x] written in front of [s] continues on [s] with
    the accumulator shifted by the digits of [x]. *)
Lemma leadingDigits_pretty_N_go (x : N) :
  (0 < x)%N ->
  forall (s : string) (acc : option Z),
    exists k : Z,
      0 <= k /\
      leadingDigits (pretty_N_go x s) acc =
      leadingDigits s (Some (default 0 acc * 10 ^ k + Z.of_N x)).
Proof.
  induction (N.lt_wf_0 x) as [x _ IH]. intros Hx s acc.
  rewrite pretty_N_go_step by exact Hx.
  assert (x `mod` 10 < 10)%N as Hmod by (apply N.mod_lt; lia).
  pose proof (N.div_mod x 10 ltac:(lia)) as Hdm.
  destruct (decide (x `div` 10 = 0)%N) as [Hz|Hnz].
  - rewrite Hz, pretty_N_go_0. exists 1. split; [lia|].
    simpl. rewrite (digitValue_pretty_N_char _ Hmod).
    f_equal. f_equal. lia.
  - destruct (IH (x `div` 10)%N) with (s := String (pretty_N_char (x `mod` 10)) s)
      (acc := acc) as (k & Hk & Heq).
    + apply N.div_lt; lia.
    + lia.
    + exists (k + 1). split; [lia|].
      rewrite Heq. simpl. rewrite (digitValue_pretty_N_char _ Hmod).
      f_equal. f_equal. rewrite Z.pow_add_r by lia. lia.
Qed.

(** The text of a positive number starts with a digit. *)
Lemma pretty_N_go_head (x : N) :
  (0 < x)%N ->
  forall s : string,
    exists (c : ascii) (rest : string) (d : Z),
      pretty_N_go x s = String c rest /\ digitValue c = Some d.
Proof.
  induction (N.lt_wf_0 x) as [x _ IH]. intros Hx s.
  rewrite pretty_N_go_step by exact Hx.
  assert (x `mod` 10 < 10)%N as Hmod by (apply N.mod_lt; lia).
  destruct (decide (x `div` 10 = 0)%N) as [Hz|Hnz].
  - rewrite Hz, pretty_N_go_0. do 3 eexists. split; [reflexivity|].
    apply digitValue_pretty_N_char. exact Hmod.
  - apply IH; [apply N.div_lt; lia | apply N.neq_0_lt_0; exact Hnz].
Qed.

(** On a text that starts with a digit [parseInt] reads the digits with the
    positive sign. *)
Lemma parseInt_digit_head (c : ascii) (rest : string) (d : Z) :
  digitValue c = Some d ->
  parseInt (String c rest) =
  match leadingDigits (String c rest) None with
  | Some n => Num (1 * n)
  | None => NaN
  end.
Proof.
  destruct c as [[] [] [] [] [] [] [] []]; intros Hd;
    try discriminate Hd; reflexivity.
Qed.

Lemma parseInt_pretty_pos (p : positive) :
  parseInt (pretty (N.pos p)) = Num (Z.pos p).
Proof.
  unfold pretty, pretty_N. destruct (decide (N.pos p = 0%N)) as [Hz|_]; [discriminate|].
  destruct (pretty_N_go_head (N.pos p) ltac:(lia) "") as (c & rest & d & Hs & Hd).
  destruct (leadingDigits_pretty_N_go (N.pos p) ltac:(lia) "" None) as (k & _ & Hread).
  rewrite Hs in Hread |- *. rewrite (parseInt_digit_head _ _ _ Hd), Hread.
  simpl. reflexivity.
Qed.

Lemma parseInt_pretty (t : Z) : parseInt (pretty t) = Num t.
Proof.
  destruct t as [|p|p].
  - reflexivity.
  - apply parseInt_pretty_pos.
  - change (pretty (Z.neg p)) with (String "-" (pretty (N.pos p))).
    unfold pretty, pretty_N.
    destruct (decide (N.pos p = 0%N)) as [Hz|_]; [discriminate|].
    destruct (leadingDigits_pretty_N_go (N.pos p) ltac:(lia) "" None)
      as (k & _ & Hdigits).
    unfold parseInt. simpl. rewrite Hdigits. simpl. reflexivity.
Qed.

Lemma pretty_Z_nonempty (t : Z) : pretty t <> "".
Proof.
  intros Heq. pose proof (parseInt_pretty t) as Hread.
  rewrite Heq in Hread. discriminate.
Qed.

(** X1: the text [Date.now().toString()] the subscriber stores is read back
    by [parseInt(_, 10)] as the same number, so the age test of the
    hydration block on a record written at time [t] is [now - t < 300000]. *)
Theorem X1_timestamp_round_trip (t now : Z) :
  parseInt (pretty t) = Num t /\
  (isFresh now (pretty t) = true <-> now - t < CACHE_DURATION).
Proof.
  pose proof (parseInt_pretty t) as Hread.
  split; [exact Hread|].
  unfold isFresh. rewrite Hread. simpl. apply Z.ltb_lt.
Qed.

End TimestampFacts.

(** ** Further properties of the hydration block *)

Section HydrationMore.

Import Browser Main.

Variable P : Platform.

Lemma CACHE_keys_differ : CACHE_KEY <> CACHE_TIMESTAMP_KEY.
Proof. discriminate. Qed.

Lemma cleared_data (items : gmap string string) : cleared items !! CACHE_KEY = None.
Proof.
  unfold cleared. rewrite lookup_delete_ne by (intros H; discriminate H).
  apply lookup_delete_eq.
Qed.

Lemma cleared_other (items : gmap string string) (k : string) :
  k <> CACHE_KEY -> k <> CACHE_TIMESTAMP_KEY -> cleared items !! k = items !! k.
Proof.
  intros Hd Ht. unfold cleared.
  rewrite lookup_delete_ne by congruence. apply lookup_delete_ne. congruence.
Qed.

Lemma cleared_subset (items : gmap string string) (k v : string) :
  cleared items !! k = Some v -> items !! k = Some v.
Proof.
  unfold cleared. intros H.
  apply lookup_delete_Some in H as [_ H].
  apply lookup_delete_Some in H as [_ H]. exact H.
Qed.

(** The storage the hydration block leaves is the one it found or the one
    it found without the two keys. *)
Lemma hydrate_storage (now : Z) (items : gmap string string)
    (cache : gmap (list string) JsVal) (log : list string) :
  let w' := snd (hydrate P now {| localStorage := Items items;
                                  queryData := cache; console := log |}) in
  localStorage w' = Items items \/ localStorage w' = Items (cleared items).
Proof.
  rewrite hydrate_Items. simpl.
  repeat case_match; simpl; auto.
Qed.

(** X3: when the data key or the timestamp key is absent, or holds the
    empty string, the hydration block changes nothing: storage, query cache
    and console are as before. *)
Theorem X3_hydrate_incomplete_record_is_noop (now : Z) (items : gmap string string) :
  items !! CACHE_KEY = None \/ items !! CACHE_KEY = Some "" \/
  items !! CACHE_TIMESTAMP_KEY = None \/ items !! CACHE_TIMESTAMP_KEY = Some "" ->
  hydrate P now (startWorld (Items items)) = (Normal tt, startWorld (Items items)).
Proof.
  intros Hcase. unfold startWorld. rewrite hydrate_Items.
  destruct (items !! CACHE_KEY) as [blob|] eqn:Hb; [|reflexivity].
  destruct (items !! CACHE_TIMESTAMP_KEY) as [stamp|] eqn:Hs; [|reflexivity].
  destruct Hcase as [H|[H|[H|H]]]; try discriminate H.
  - injection H as ->. reflexivity.
  - injection H as ->. simpl. rewrite andb_false_r. reflexivity.
Qed.

(** X4: the hydration block never writes to the storage: what it leaves is
    the storage it found or that storage without the two cache keys, so
    every other key keeps its value and no key appears. *)
Theorem X4_hydrate_only_removes_cache_keys (now : Z) (items : gmap string string) :
  exists items',
    localStorage (snd (hydrate P now (startWorld (Items items)))) = Items items' /\
    (items' = items \/ items' = cleared items) /\
    (forall k : string,
       k <> CACHE_KEY -> k <> CACHE_TIMESTAMP_KEY -> items' !! k = items !! k) /\
    (forall k v : string, items' !! k = Some v -> items !! k = Some v).
Proof.
  destruct (hydrate_storage now items ∅ []) as [Hsame|Hcleared].
  - exists items. split; [exact Hsame|]. split; [left; reflexivity|].
    split; [reflexivity | auto].
  - exists (cleared items). split; [exact Hcleared|]. split; [right; reflexivity|].
    split; [apply cleared_other | apply cleared_subset].
Qed.

(** X5: running the hydration block again, at the same time, on the world
    it left changes nothing more. *)
Theorem X5_hydrate_idempotent (now : Z) (items : gmap string string) :
  let w1 := snd (hydrate P now (startWorld (Items items))) in
  hydrate P now w1 = (Normal tt, w1).
Proof.
  cbv zeta. unfold startWorld. rewrite hydrate_Items. cbn [snd].
  destruct (items !! CACHE_KEY) as [blob|] eqn:Hb;
    [|rewrite hydrate_Items, Hb; reflexivity].
  destruct (items !! CACHE_TIMESTAMP_KEY) as [stamp|] eqn:Hs;
    [|rewrite hydrate_Items, Hb, Hs; reflexivity].
  destruct (truthy (JStr blob) && truthy (JStr stamp)) eqn:Ht;
    [|rewrite hydrate_Items, Hb, Hs, Ht; reflexivity].
  destruct (isFresh now stamp) eqn:Hf;
    [|rewrite hydrate_Items, cleared_data; reflexivity].
  destruct (JSON_parse P blob) as [parsed|e] eqn:Hp;
    [|rewrite hydrate_Items, cleared_data; reflexivity].
  rewrite hydrate_Items, Hb, Hs, Ht, Hf, Hp.
  destruct parsed; try reflexivity; rewrite insert_insert_eq; reflexivity.
Qed.

(** X6: when reading [localStorage] itself throws, the exception leaves the
    hydration block: the handler logs the warning and then throws on its own
    [localStorage.removeItem]. *)
Theorem X6_hydrate_denied_storage_throws (now : Z) :
  hydrate P now (startWorld Denied) =
  (Throw SecurityError, withWarning (startWorld Denied) restoreWarning).
Proof. reflexivity. Qed.

End HydrationMore.

(** ** Further properties of the persistence subscriber *)

Section PersistenceMore.

Import Browser Main.

Variable P : Platform.

(** The subscriber on an accessible storage, when its guard holds and the
    data serializes, case by case on the two writes. *)
Lemma onCacheEvent_Items (now : Z) (event : CacheEvent) (w : World)
    (items : gmap string string) (text : string) :
  shouldPersist event = true ->
  localStorage w = Items items ->
  JSON_stringify P (stateData event) = Normal text ->
  onCacheEvent P now event w =
  (Normal tt,
   if quotaExceeded P items CACHE_KEY text then withWarning w persistWarning
   else if quotaExceeded P (<[CACHE_KEY := text]> items) CACHE_TIMESTAMP_KEY (pretty now)
        then withWarning (withItems w (<[CACHE_KEY := text]> items)) persistWarning
        else withItems w (<[CACHE_TIMESTAMP_KEY := pretty now]> (<[CACHE_KEY := text]> items))).
Proof.
  intros Hg Hst Htext. unfold onCacheEvent. rewrite Hg.
  destruct w as [storage cache log]. simpl in Hst. subst storage.
  cbv [tryCatch persistWrites setItem localStorageRef setItems lift bind warn
       withItems withWarning localStorage queryData console].
  rewrite Htext.
  destruct (quotaExceeded P items CACHE_KEY text); [reflexivity|].
  destruct (quotaExceeded P _ CACHE_TIMESTAMP_KEY (pretty now)); reflexivity.
Qed.

(** X2: a list persisted at time [written] and read by the hydration block
    of a later page load at time [now]: when less than five minutes have
    passed the query cache is seeded with what [JSON.parse] makes of the
    stored text and the storage is kept; otherwise both keys are deleted and
    nothing is seeded. *)
Theorem X2_persist_then_hydrate (written now : Z) (event : CacheEvent) (w : World)
    (items : gmap string string) (text : string) (restored : JsVal) :
  head (queryKey event) = Some "projects" ->
  truthy (stateData event) = true ->
  localStorage w = Items items ->
  JSON_stringify P (stateData event) = Normal text ->
  quotaExceeded P items CACHE_KEY text = false ->
  quotaExceeded P (<[CACHE_KEY := text]> items) CACHE_TIMESTAMP_KEY (pretty written) = false ->
  JSON_parse P text = Normal restored ->
  let stored := <[CACHE_TIMESTAMP_KEY := pretty written]> (<[CACHE_KEY := text]> items) in
  localStorage (snd (onCacheEvent P written event w)) = Items stored /\
  (now - written < CACHE_DURATION ->
     hydrate P now (startWorld (Items stored)) =
     (Normal tt,
      {| localStorage := Items stored;
         queryData := {[ projectsKey := restored ]};
         console := [] |})) /\
  (now - written >= CACHE_DURATION ->
     hydrate P now (startWorld (Items stored)) =
     (Normal tt,
      {| localStorage := Items (cleared items); queryData := ∅; console := [] |})).
Proof.
  intros Hk Ht Hst Htext Hq1 Hq2 Hparse stored.
  assert (shouldPersist event = true) as Hg
    by (apply shouldPersist_true; split; assumption).
  assert (stored !! CACHE_KEY = Some text) as Hdata.
  { unfold stored. rewrite lookup_insert_ne by (intros H; discriminate H).
    apply lookup_insert_eq. }
  assert (stored !! CACHE_TIMESTAMP_KEY = Some (pretty written)) as Hstamp
    by apply lookup_insert_eq.
  assert (truthy (JStr text) = true) as Htt
    by (apply truthy_JStr; eapply JSON_parse_Normal_nonempty; eassumption).
  assert (truthy (JStr (pretty written)) = true) as Hts
    by (apply truthy_JStr, pretty_Z_nonempty).
  assert (restored <> JUndefined) as Hdef.
  { intros ->. exact (JSON_parse_defined P text Hparse). }
  assert (isFresh now (pretty written) = (now - written <? CACHE_DURATION)) as Hfresh.
  { unfold isFresh. rewrite parseInt_pretty. reflexivity. }
  split.
  { rewrite (onCacheEvent_Items written event w items text Hg Hst Htext), Hq1, Hq2.
    reflexivity. }
  split; intros Hage; unfold startWorld;
    rewrite hydrate_Items, Hdata, Hstamp, Htt, Hts, Hfresh; simpl.
  - rewrite (proj2 (Z.ltb_lt _ _) Hage), Hparse.
    destruct restored; try reflexivity. congruence.
  - rewrite (proj2 (Z.ltb_ge _ _)) by lia.
    f_equal. f_equal. f_equal. unfold stored, cleared.
    rewrite (delete_insert_ne _ CACHE_KEY CACHE_TIMESTAMP_KEY) by (intros H; discriminate H).
    rewrite delete_insert_eq, delete_insert_eq. reflexivity.
Qed.

(** X7: whatever the event and whatever fails, the subscriber touches
    nothing but the two cache keys: the query cache is as before, an
    inaccessible storage stays so, and in an accessible storage every other
    key keeps its value. *)
Theorem X7_onCacheEvent_touches_only_cache_keys (now : Z) (event : CacheEvent) (w : World) :
  let w' := snd (onCacheEvent P now event w) in
  queryData w' = queryData w /\
  (localStorage w = Denied -> localStorage w' = Denied) /\
  (forall items : gmap string string,
     localStorage w = Items items ->
     exists items',
       localStorage w' = Items items' /\
       forall k : string,
         k <> CACHE_KEY -> k <> CACHE_TIMESTAMP_KEY -> items' !! k = items !! k).
Proof.
  cbv zeta. unfold onCacheEvent.
  destruct (shouldPersist event); [|cbn [snd]; eauto].
  destruct w as [storage cache log].
  cbv [tryCatch persistWrites setItem localStorageRef setItems lift bind warn
       localStorage queryData console].
  destruct storage as [|items].
  { cbn. split; [reflexivity|]. split; [reflexivity|]. intros items H. discriminate H. }
  destruct (JSON_stringify P (stateData event)) as [text|e].
  2:{ cbn. split; [reflexivity|]. split; [discriminate|].
      intros items0 [= <-]. eauto. }
  destruct (quotaExceeded P items CACHE_KEY text).
  { cbn. split; [reflexivity|]. split; [discriminate|].
    intros items0 [= <-]. eauto. }
  destruct (quotaExceeded P _ CACHE_TIMESTAMP_KEY (pretty now)); cbn;
    (split; [reflexivity|]); (split; [discriminate|]); intros items0 [= <-];
    eexists; (split; [reflexivity|]); intros k Hd Hs.
  - rewrite lookup_insert_ne by congruence. reflexivity.
  - rewrite !lookup_insert_ne by congruence. reflexivity.
Qed.

(** X8: the first write is not undone when the second is refused: the new
    data stays stored beside the timestamp that was there before (or beside
    none), and the warning is logged. *)
Theorem X8_refused_timestamp_keeps_new_data (now : Z) (event : CacheEvent) (w : World)
    (items : gmap string string) (text : string) :
  head (queryKey event) = Some "projects" ->
  truthy (stateData event) = true ->
  localStorage w = Items items ->
  JSON_stringify P (stateData event) = Normal text ->
  quotaExceeded P items CACHE_KEY text = false ->
  quotaExceeded P (<[CACHE_KEY := text]> items) CACHE_TIMESTAMP_KEY (pretty now) = true ->
  onCacheEvent P now event w =
    (Normal tt, withWarning (withItems w (<[CACHE_KEY := text]> items)) persistWarning) /\
  (<[CACHE_KEY := text]> items) !! CACHE_KEY = Some text /\
  (<[CACHE_KEY := text]> items) !! CACHE_TIMESTAMP_KEY = items !! CACHE_TIMESTAMP_KEY.
Proof.
  intros Hk Ht Hst Htext Hq1 Hq2.
  assert (shouldPersist event = true) as Hg
    by (apply shouldPersist_true; split; assumption).
  rewrite (onCacheEvent_Items now event w items text Hg Hst Htext), Hq1, Hq2.
  split; [reflexivity|]. split; [apply lookup_insert_eq|].
  apply lookup_insert_ne. intros H. discriminate H.
Qed.

(** X9: a later event replaces the record of an earlier one: after two
    events that are both persisted the storage is what the later event alone
    would have left. *)
Theorem X9_later_event_overwrites (now1 now2 : Z) (event1 event2 : CacheEvent) (w : World)
    (items : gmap string string) (text1 text2 : string) :
  shouldPersist event1 = true ->
  shouldPersist event2 = true ->
  localStorage w = Items items ->
  JSON_stringify P (stateData event1) = Normal text1 ->
  JSON_stringify P (stateData event2) = Normal text2 ->
  (forall (m : gmap string string) (k v : string), quotaExceeded P m k v = false) ->
  snd (onCacheEvent P now2 event2 (snd (onCacheEvent P now1 event1 w))) =
  snd (onCacheEvent P now2 event2 w).
Proof.
  intros Hg1 Hg2 Hst Ht1 Ht2 Hquota.
  rewrite (onCacheEvent_Items now1 event1 w items text1 Hg1 Hst Ht1), !Hquota.
  cbn [snd].
  rewrite (onCacheEvent_Items now2 event2
             (withItems w (<[CACHE_TIMESTAMP_KEY := pretty now1]> (<[CACHE_KEY := text1]> items)))
             _ text2 Hg2 eq_refl Ht2), !Hquota.
  rewrite (onCacheEvent_Items now2 event2 w items text2 Hg2 Hst Ht2), !Hquota.
  cbn [snd]. unfold withItems. simpl. f_equal. f_equal.
  rewrite (insert_insert_ne _ CACHE_KEY CACHE_TIMESTAMP_KEY) by (intros H; discriminate H).
  rewrite !insert_insert_eq. reflexivity.
Qed.

End PersistenceMore.

(** ** Further properties of the transform *)

Section TransformMore.

Import Transform.

Lemma entries_or_not (items : list JsVal) :
  Forall (fun item => isRemoteEntry item = true) items \/
  Exists (fun item => isRemoteEntry item = false) items.
Proof.
  induction items as [|item rest [IH|IH]].
  - left. constructor.
  - destruct (isRemoteEntry item) eqn:He.
    + left. constructor; assumption.
    + right. apply Exists_cons_hd. exact He.
  - right. apply Exists_cons_tl. exact IH.
Qed.

(** One value that is not an entry makes the whole map throw. *)
Lemma mappedProjects_not_entries (items : list JsVal) :
  Exists (fun item => isRemoteEntry item = false) items ->
  mappedProjects items = Throw TypeError.
Proof.
  unfold mappedProjects. induction items as [|item rest IH]; intros Hex.
  - inversion Hex.
  - simpl. destruct (isRemoteEntry item) eqn:He.
    + rewrite (mapItem_entry _ He). simpl. rewrite IH; [reflexivity|].
      inversion Hex; subst; [congruence | assumption].
    + rewrite (mapItem_throws _ He). reflexivity.
Qed.

(** X10: the transform is all or nothing: when one value of the batch has
    no [fields] section or no [sys] section, [fetchProjects] rejects with a
    TypeError and no Project is returned, also not for the entries that are
    well formed. *)
Theorem X10_one_malformed_entry_rejects_the_batch (response : JsVal) (items : list JsVal) :
  optProp response "items" = JArr items ->
  Exists (fun item => isRemoteEntry item = false) items ->
  mappedProjects items = Throw TypeError /\
  fetchProjects (Normal response) = Throw TypeError.
Proof.
  intros Hitems Hex.
  pose proof (mappedProjects_not_entries items Hex) as Hmap.
  split; [exact Hmap|].
  unfold fetchProjects. simpl.
  rewrite getProp_optProp by (destruct response; simpl in *; congruence).
  rewrite Hitems. simpl. rewrite Hmap. reflexivity.
Qed.

(** X11: [fetchProjects] resolves exactly when the remote call resolved with
    a response whose [items] is an array of entries, and then with the
    pointwise image of that array; in particular it never resolves with a
    shorter or reordered list. *)
Theorem X11_fetchProjects_resolves_iff (getEntries : Completion JsVal) (result : JsVal) :
  fetchProjects getEntries = Normal result <->
  exists (response : JsVal) (items : list JsVal),
    getEntries = Normal response /\
    optProp response "items" = JArr items /\
    Forall (fun item => isRemoteEntry item = true) items /\
    result = JArr (projectOf <$> items).
Proof.
  split.
  - destruct getEntries as [response|e]; [|discriminate].
    unfold fetchProjects. simpl.
    destruct (nullish response) eqn:Hn.
    { destruct response; simpl in *; discriminate. }
    rewrite (getProp_optProp _ _ Hn). simpl.
    destruct (optProp response "items") as [| | | | |items|] eqn:Hitems;
      try discriminate.
    destruct (entries_or_not items) as [Hall|Hex].
    + rewrite (mappedProjects_entries _ Hall). simpl. intros [= <-].
      exists response, items. auto.
    + rewrite (mappedProjects_not_entries _ Hex). discriminate.
  - intros (response & items & -> & Hitems & Hall & ->).
    apply fetchProjects_entries; assumption.
Qed.

(** X12: [img] is what [image?.fields?.file?.url] gives: the callback
    returns on every entry whatever [image] is, and when [image],
    [image.fields] or [image.fields.file] is [null] or [undefined] (an asset
    link that was not resolved, say) [img] is [undefined]. *)
Theorem X12_img_follows_the_optional_chain (item : JsVal) :
  isRemoteEntry item = true ->
  let image := optProp (entryFields item) "image" in
  exists project,
    mapItem item = Normal project /\
    getProp project "img" =
      Normal (optProp (optProp (optProp image "fields") "file") "url") /\
    (nullish image = true \/
     nullish (optProp image "fields") = true \/
     nullish (optProp (optProp image "fields") "file") = true ->
     getProp project "img" = Normal JUndefined).
Proof.
  intros Hentry image. exists (projectOf item).
  split; [apply mapItem_entry; exact Hentry|].
  destruct (projectOf_fields item) as (_ & _ & _ & Himg).
  split; [exact Himg|].
  rewrite Himg. fold image.
  intros [Hn|[Hn|Hn]].
  - rewrite (optProp_nullish image "fields" Hn). reflexivity.
  - rewrite (optProp_nullish _ "file" Hn). reflexivity.
  - rewrite (optProp_nullish _ "url" Hn). reflexivity.
Qed.

End TransformMore.

(** ** Properties of the components *)

Section ViewFacts.

Import Transform Main Hook View.

Lemma renderCard_defined (project : JsVal) (index : nat) :
  nullish project = false -> renderCard project index = Normal (cardOf project index).
Proof.
  intros Hn. unfold renderCard, cardOf.
  rewrite !(getProp_optProp project _ Hn). reflexivity.
Qed.

Lemma renderCard_nullish (project : JsVal) (index : nat) :
  nullish project = true -> renderCard project index = Throw TypeError.
Proof. destruct project; simpl; intros H; try discriminate H; reflexivity. Qed.


Lemma arrayMapIndexed_nullish (elems : list JsVal) (start : nat) :
  Exists (fun project => nullish project = true) elems ->
  arrayMapIndexed renderCard start elems = Throw TypeError.
Proof.
  intros Hex. revert start.
  induction elems as [|project rest IH]; intros start.
  - inversion Hex.
  - simpl. destruct (nullish project) eqn:Hn.
    + rewrite (renderCard_nullish _ _ Hn). reflexivity.
    + rewrite (renderCard_defined _ _ Hn). simpl. rewrite IH; [reflexivity|].
      inversion Hex; subst; [congruence | assumption].
Qed.



(** X14: [Projects] throws a TypeError, instead of rendering, when the query
    is not pending and its data is neither [undefined] nor an array ([null],
    a number, an object: the default [[]] applies to [undefined] only), or an
    array with a [null] or [undefined] element. *)
Theorem X14_Projects_throws_on_non_list_data (st : QueryState) :
  status st <> Pending ->
  (data st <> JUndefined /\ (forall elems, data st <> JArr elems)) \/
  (exists elems,
     data st = JArr elems /\ Exists (fun project => nullish project = true) elems) ->
  Projects st = Throw TypeError.
Proof.
  intros Hst Hcase. unfold Projects, useFetchProjects. simpl.
  assert ((match status st with Pending => true | _ => false end) = false) as ->
    by (destruct (status st); congruence).
  destruct Hcase as [[Hdef Hnot]|(elems & Hdata & Hex)].
  - destruct (data st) as [| | | | |elems|]; try reflexivity; [congruence|].
    exfalso. exact (Hnot elems eq_refl).
  - rewrite Hdata, (arrayMapIndexed_nullish _ 0 Hex). reflexivity.
Qed.


(** X16: when the first fetch and its one retry fail and nothing was
    restored, [Projects] renders the section with no card: neither the
    skeleton nor an error. *)
Theorem X16_failed_fetch_renders_empty_grid (responses : nat -> Completion JsVal)
    (e0 e1 : Exn) :
  responses 0%nat = Throw e0 ->
  responses 1%nat = Throw e1 ->
  Projects (fst (fetchCycle defaultOptions (fun n => fetchProjects (responses n))
                   (initialState ∅)))
  = Normal (CardsSection []).
Proof.
  intros H0 H1. unfold fetchCycle. simpl. rewrite H0. simpl. rewrite H1. reflexivity.
Qed.


End ViewFacts.

(** ** The further properties on concrete inputs *)

Section MoreRuns.

Import Transform Browser Main Hook View.

Lemma X2_persist_then_hydrate_witness :
  hydrate Reference.platform 1000100
    (startWorld (Items (<[CACHE_TIMESTAMP_KEY := pretty 1000000]>
                          (<[CACHE_KEY := Reference.stringifyValue (JArr [JStr "tours"])]> ∅))))
  = (Normal tt,
     {| localStorage :=
          Items (<[CACHE_TIMESTAMP_KEY := pretty 1000000]>
                   (<[CACHE_KEY := Reference.stringifyValue (JArr [JStr "tours"])]> ∅));
        queryData := {[ projectsKey := JArr [JStr "tours"] ]};
        console := [] |}).
Proof.
  pose proof (X2_persist_then_hydrate Reference.platform 1000000 1000100
                {| queryKey := ["projects"]; stateData := JArr [JStr "tours"] |}
                (startWorld (Items ∅)) ∅
                (Reference.stringifyValue (JArr [JStr "tours"]))
                (JArr [JStr "tours"])
                eq_refl eq_refl eq_refl eq_refl eq_refl eq_refl eq_refl) as Hrun.
  destruct Hrun as (_ & Hfresh & _).
  apply Hfresh. unfold CACHE_DURATION. lia.
Defined.

Lemma X3_hydrate_incomplete_record_witness :
  hydrate Reference.platform 1000000 (startWorld (Items Samples.dataOnly))
  = (Normal tt, startWorld (Items Samples.dataOnly)).
Proof.
  apply (X3_hydrate_incomplete_record_is_noop Reference.platform 1000000 Samples.dataOnly).
  right. right. left. reflexivity.
Defined.

Lemma X8_refused_timestamp_witness :
  onCacheEvent Samples.stampRefused 1000000
    {| queryKey := ["projects"]; stateData := JArr [] |}
    (startWorld (Items Samples.olderRecord))
  = (Normal tt,
     withWarning (withItems (startWorld (Items Samples.olderRecord))
                    (<[CACHE_KEY := "[]"]> Samples.olderRecord))
       persistWarning) /\
  (<[CACHE_KEY := "[]"]> Samples.olderRecord) !! CACHE_TIMESTAMP_KEY = Some "100".
Proof.
  pose proof (X8_refused_timestamp_keeps_new_data Samples.stampRefused 1000000
                {| queryKey := ["projects"]; stateData := JArr [] |}
                (startWorld (Items Samples.olderRecord)) Samples.olderRecord "[]"
                eq_refl eq_refl eq_refl eq_refl eq_refl eq_refl) as Hkept.
  destruct Hkept as (Hrun & _ & Hstamp).
  split; [exact Hrun|]. rewrite Hstamp. reflexivity.
Defined.

Lemma X9_later_event_overwrites_witness :
  snd (onCacheEvent Reference.platform 2000
         {| queryKey := ["projects"]; stateData := JArr [JStr "second"] |}
         (snd (onCacheEvent Reference.platform 1000
                 {| queryKey := ["projects"]; stateData := JArr [JStr "first"] |}
                 (startWorld (Items ∅)))))
  = snd (onCacheEvent Reference.platform 2000
           {| queryKey := ["projects"]; stateData := JArr [JStr "second"] |}
           (startWorld (Items ∅))).
Proof.
  apply (X9_later_event_overwrites Reference.platform 1000 2000
           {| queryKey := ["projects"]; stateData := JArr [JStr "first"] |}
           {| queryKey := ["projects"]; stateData := JArr [JStr "second"] |}
           (startWorld (Items ∅)) ∅
           (Reference.stringifyValue (JArr [JStr "first"]))
           (Reference.stringifyValue (JArr [JStr "second"])));
    reflexivity.
Defined.

Lemma X10_one_malformed_entry_witness :
  mappedProjects Samples.brokenBatch = Throw TypeError /\
  fetchProjects (Normal (JObj [("items", JArr Samples.brokenBatch)])) = Throw TypeError.
Proof.
  apply (X10_one_malformed_entry_rejects_the_batch
           (JObj [("items", JArr Samples.brokenBatch)]) Samples.brokenBatch).
  - reflexivity.
  - apply Exists_cons_tl, Exists_cons_hd. reflexivity.
Defined.

Lemma X11_fetchProjects_resolves_witness :
  exists (response : JsVal) (items : list JsVal),
    Normal (JObj [("items", JArr Examples.batch3)]) = Normal response /\
    optProp response "items" = JArr items /\
    Forall (fun item => isRemoteEntry item = true) items /\
    JArr (projectOf <$> Examples.batch3) = JArr (projectOf <$> items).
Proof.
  apply (X11_fetchProjects_resolves_iff
           (Normal (JObj [("items", JArr Examples.batch3)]))
           (JArr (projectOf <$> Examples.batch3))).
  reflexivity.
Defined.

Lemma X12_img_follows_the_optional_chain_witness :
  exists project,
    mapItem (Examples.fullEntry "e1" "tours" "https://tours.example"
               "//images.example/tours.png") = Normal project /\
    getProp project "img" = Normal (JStr "//images.example/tours.png").
Proof.
  destruct (X12_img_follows_the_optional_chain
              (Examples.fullEntry "e1" "tours" "https://tours.example"
                 "//images.example/tours.png") eq_refl)
    as (project & Hmap & Himg & _).
  exists project. split; [exact Hmap | exact Himg].
Defined.


Lemma X14_Projects_throws_witness :
  queryData (snd (hydrate Reference.platform 1000000
                    (startWorld (Items Samples.nullRecord))))
    = {[ projectsKey := JNull ]} /\
  Projects {| data := JNull; status := Success |} = Throw TypeError.
Proof.
  split.
  - unfold startWorld. rewrite hydrate_Items. reflexivity.
  - apply (X14_Projects_throws_on_non_list_data {| data := JNull; status := Success |}).
    + discriminate.
    + left. split; [discriminate | intros elems; discriminate].
Defined.


Lemma X16_failed_fetch_witness :
  Projects (fst (fetchCycle defaultOptions
                   (fun n => fetchProjects (Examples.alwaysFails n)) (initialState ∅)))
  = Normal (CardsSection []).
Proof.
  apply (X16_failed_fetch_renders_empty_grid Examples.alwaysFails NetworkError NetworkError);
    reflexivity.
Defined.


End MoreRuns.
